(** * ReceiptProcessor: the client-side progress-streaming state machine

    A shallow embedding of the [ReceiptProcessor] React component
    (src/components/ReceiptProcessor.tsx and its receipt-listing variant)
    as an event-driven transition system, and the properties of its
    folder-selection gate, processing runs and progress stream.  The
    variant that fakes progress with a timer has no stream; it is
    modelled apart, in [Simulated].

    The component is single-threaded and event-driven.  Every [async]
    handler runs synchronously up to its next [await]; what remains of it
    is kept in the state as a suspended call, resumed by the event that
    settles the awaited promise.  One transition of the system is therefore
    one browser task: a click, the settling of a [fetch] or of a body read,
    or an event dispatched by an [EventSource]. *)

From Stdlib Require Import ZArith String List Bool Lia.
From stdpp Require Import base option list.
Import ListNotations.

Local Open Scope string_scope.
Local Open Scope Z_scope.
Local Open Scope list_scope.
Set Warnings "-register-all".

(** ** JavaScript values as delivered by [JSON.parse] / [response.json()] *)

Module Js.

(** Numbers are restricted to integers: the backend interface carries
    integer counts and percentages, and nothing below depends on a
    fractional part. [JUndefined] is what reading an absent property
    yields. *)
Inductive JsValue : Type :=
| JUndefined
| JNull
| JBool (b : bool)
| JNum (n : Z)
| JStr (s : string)
| JArr (items : list JsValue)
| JObj (fields : list (string * JsValue)).

(** ToBoolean. *)
Definition truthy (v : JsValue) : bool :=
  match v with
  | JUndefined | JNull => false
  | JBool b => b
  | JNum n => negb (n =? 0)%Z
  | JStr s => negb (s =? "")%string
  | JArr _ | JObj _ => true
  end.

(** [a || b]. *)
Definition or (a b : JsValue) : JsValue := if truthy a then a else b.

(** Own property of a parsed object; the first binding of a key is the
    property's value. *)
Fixpoint lookup_field (key : string) (fields : list (string * JsValue)) : JsValue :=
  match fields with
  | [] => JUndefined
  | (k, v) :: rest => if (k =? key)%string then v else lookup_field key rest
  end.

(** [v.key] for the keys the component reads ([success], [processed],
    [total], [progress]): [None] is the TypeError thrown on [null] and
    [undefined]; primitives and arrays have no such property. *)
Definition prop (key : string) (v : JsValue) : option JsValue :=
  match v with
  | JUndefined | JNull => None
  | JObj fields => Some (lookup_field key fields)
  | JBool _ | JNum _ | JStr _ | JArr _ => Some JUndefined
  end.

(** [v === n] for a number literal [n]. *)
Definition strict_eq_num (v : JsValue) (n : Z) : bool :=
  match v with
  | JNum m => (m =? n)%Z
  | _ => false
  end.

End Js.
Import Js.

(** ** Component state *)

(** The two event-stream variants of the component: [Plain] is
    src/components/ReceiptProcessor.tsx (its two copies differ in the base
    address and logging only); [Listing] additionally keeps a receipts
    list, uploads after folder selection and offers a download. *)
Inductive Variant : Type := Plain | Listing.

Record Summary : Type := { processed : JsValue; total : JsValue }.

Inductive Toast : Type :=
| FolderSelectedToast
| SelectErrorToast
| ProcessingCompleteToast (processedField : JsValue)
| ProcessErrorToast
| UploadCompleteToast
| UploadErrorToast
| ReceiptsErrorToast
| OpeningOutputToast
| OpenOutputErrorToast
| DownloadStartedToast
| DownloadErrorToast.

(** Outbound requests, in the order they are issued. *)
Inductive Request : Type :=
| PostSelectFolder
| PostProcess
| GetProgress
| GetReceipts
| PostUpload
| GetDownload.

(** An [EventSource] object. [closed] is readyState = CLOSED;
    [close_calls] counts the invocations of [close()] on it. *)
Record EventSource : Type := { closed : bool; close_calls : nat }.

(** Who is waiting for [fetchReceipts] to finish. *)
Inductive Caller : Type :=
| Detached      (* the mount effect, or the progress handler: nobody awaits *)
| FromUpload.   (* handleUpload, itself awaited by handleFolderSelect *)

(** The [await] a handler invocation is suspended at. *)
Inductive Await : Type :=
| SelectFetch
| SelectJson
| UploadFetch
| UploadJson
| ReceiptsFetch (k : Caller)
| ReceiptsJson (k : Caller)
| ProcessFetch
| ProcessJson (es : nat)
| DownloadFetch
| DownloadBlob
| Finished.

Record State : Type := {
  processing : bool;
  progress : JsValue;
  summary : option Summary;
  folderSelected : bool;
  receipts : JsValue;
  toasts : list Toast;
  sources : list EventSource;
  calls : list Await;
  net : list Request
}.

Definition setProcessing (b : bool) (s : State) : State :=
  {| processing := b; progress := progress s; summary := summary s;
     folderSelected := folderSelected s; receipts := receipts s;
     toasts := toasts s; sources := sources s; calls := calls s; net := net s |}.

Definition setProgress (p : JsValue) (s : State) : State :=
  {| processing := processing s; progress := p; summary := summary s;
     folderSelected := folderSelected s; receipts := receipts s;
     toasts := toasts s; sources := sources s; calls := calls s; net := net s |}.

Definition setSummary (m : option Summary) (s : State) : State :=
  {| processing := processing s; progress := progress s; summary := m;
     folderSelected := folderSelected s; receipts := receipts s;
     toasts := toasts s; sources := sources s; calls := calls s; net := net s |}.

Definition setFolderSelected (b : bool) (s : State) : State :=
  {| processing := processing s; progress := progress s; summary := summary s;
     folderSelected := b; receipts := receipts s;
     toasts := toasts s; sources := sources s; calls := calls s; net := net s |}.

Definition setReceipts (r : JsValue) (s : State) : State :=
  {| processing := processing s; progress := progress s; summary := summary s;
     folderSelected := folderSelected s; receipts := r;
     toasts := toasts s; sources := sources s; calls := calls s; net := net s |}.

Definition toast (t : Toast) (s : State) : State :=
  {| processing := processing s; progress := progress s; summary := summary s;
     folderSelected := folderSelected s; receipts := receipts s;
     toasts := toasts s ++ [t]; sources := sources s; calls := calls s; net := net s |}.

Definition set_sources (l : list EventSource) (s : State) : State :=
  {| processing := processing s; progress := progress s; summary := summary s;
     folderSelected := folderSelected s; receipts := receipts s;
     toasts := toasts s; sources := l; calls := calls s; net := net s |}.

Definition set_calls (l : list Await) (s : State) : State :=
  {| processing := processing s; progress := progress s; summary := summary s;
     folderSelected := folderSelected s; receipts := receipts s;
     toasts := toasts s; sources := sources s; calls := l; net := net s |}.

Definition set_net (l : list Request) (s : State) : State :=
  {| processing := processing s; progress := progress s; summary := summary s;
     folderSelected := folderSelected s; receipts := receipts s;
     toasts := toasts s; sources := sources s; calls := calls s; net := l |}.

(** Issue a request. *)
Definition send (q : Request) (s : State) : State := set_net (net s ++ [q]) s.

(** A handler is invoked and suspends at its first [await]. *)
Definition spawn (a : Await) (s : State) : State := set_calls (calls s ++ [a]) s.

(** Invocation [r] moves to its next [await] (or finishes). *)
Definition suspend (r : nat) (a : Await) (s : State) : State :=
  set_calls (<[r := a]> (calls s)) s.

(** [new EventSource(...)]: the connection request goes out and the object
    joins the store; its index is its identity. *)
Definition newEventSource (s : State) : nat * State :=
  (length (sources s),
   set_sources (sources s ++ [{| closed := false; close_calls := 0 |}])
               (send GetProgress s)).

(** [eventSource.close()]. *)
Definition close (es : nat) (s : State) : State :=
  set_sources
    (alter (fun c => {| closed := true; close_calls := S (close_calls c) |}) es (sources s))
    s.

(** ** The handlers, one definition per resumption point *)

(** Both URLs of a handler are fixed, so a settled [fetch] is either a
    rejection ([None]) or a response with its [ok] flag; a settled
    [response.json()] is either a rejection ([None], invalid JSON) or the
    parsed value. *)

Section Handlers.

Variable v : Variant.

(** *** fetchReceipts ([Listing] only) *)

(** What runs once [fetchReceipts] has finished, in either way (its
    [catch] absorbs every failure): nothing when nobody awaits it; the
    rest of [handleUpload] and then of [handleFolderSelect] otherwise. *)
Definition fetchReceipts_return (r : nat) (k : Caller) (s : State) : State :=
  match k with
  | Detached => suspend r Finished s
  | FromUpload =>
      suspend r Finished (toast FolderSelectedToast (toast UploadCompleteToast s))
  end.

Definition fetchReceipts_response (r : nat) (k : Caller) (o : option bool) (s : State) : State :=
  match o with
  | Some true => suspend r (ReceiptsJson k) s
  | _ => fetchReceipts_return r k (toast ReceiptsErrorToast s)
  end.

Definition fetchReceipts_body (r : nat) (k : Caller) (o : option JsValue) (s : State) : State :=
  match o with
  | Some data => fetchReceipts_return r k (setReceipts data s)
  | None => fetchReceipts_return r k (toast ReceiptsErrorToast s)
  end.

(** *** handleUpload ([Listing] only), always awaited by handleFolderSelect *)

Definition handleUpload_response (r : nat) (o : option bool) (s : State) : State :=
  match o with
  | Some true => suspend r UploadJson s
  | _ => suspend r Finished (toast FolderSelectedToast (toast UploadErrorToast s))
  end.

Definition handleUpload_body (r : nat) (o : option JsValue) (s : State) : State :=
  match o with
  | Some _ => suspend r (ReceiptsFetch FromUpload) (send GetReceipts s)
  | None => suspend r Finished (toast FolderSelectedToast (toast UploadErrorToast s))
  end.

(** *** handleFolderSelect *)

Definition handleFolderSelect (s : State) : State :=
  spawn SelectFetch (send PostSelectFolder s).

Definition handleFolderSelect_catch (r : nat) (s : State) : State :=
  suspend r Finished (toast SelectErrorToast s).

Definition handleFolderSelect_response (r : nat) (o : option bool) (s : State) : State :=
  match o with
  | Some true => suspend r SelectJson s
  | _ => handleFolderSelect_catch r s
  end.

Definition handleFolderSelect_body (r : nat) (o : option JsValue) (s : State) : State :=
  match o with
  | None => handleFolderSelect_catch r s
  | Some data =>
      match prop "success" data with
      | None => handleFolderSelect_catch r s
      | Some success =>
          if truthy success then
            match v with
            | Plain =>
                suspend r Finished (toast FolderSelectedToast (setFolderSelected true s))
            | Listing =>
                suspend r UploadFetch (send PostUpload (setFolderSelected true s))
            end
          else suspend r Finished s
      end
  end.

(** *** handleProcess *)

Definition handleProcess (s : State) : State :=
  spawn ProcessFetch
    (send PostProcess (setSummary None (setProgress (JNum 0) (setProcessing true s)))).

(** [catch] then [finally]. *)
Definition handleProcess_catch (r : nat) (s : State) : State :=
  suspend r Finished (setProcessing false (toast ProcessErrorToast s)).

Definition handleProcess_response (r : nat) (o : option bool) (s : State) : State :=
  match o with
  | Some true =>
      let (es, s1) := newEventSource s in
      suspend r (ProcessJson es) s1
  | _ => handleProcess_catch r s
  end.

Definition handleProcess_body (r : nat) (o : option JsValue) (s : State) : State :=
  match o with
  | None => handleProcess_catch r s
  | Some data =>
      match prop "processed" data, prop "total" data with
      | Some p, Some t =>
          suspend r Finished
            (setProcessing false
               (toast (ProcessingCompleteToast p)
                  (setSummary
                     (Some {| processed := Js.or p (JNum 0);
                              total := Js.or t (JNum 0) |}) s)))
      | _, _ => handleProcess_catch r s
      end
  end.

(** *** The progress stream's handlers *)

(** [eventSource.onmessage]; [None] is an [event.data] that is not JSON.
    An exception thrown in the handler ends it with the state as it is. *)
Definition onmessage (es : nat) (o : option JsValue) (s : State) : State :=
  match o with
  | None => s
  | Some data =>
      match prop "progress" data with
      | None => s
      | Some p =>
          let s1 := setProgress p s in
          if strict_eq_num p 100 then
            match v with
            | Plain => close es s1
            | Listing => spawn (ReceiptsFetch Detached) (send GetReceipts (close es s1))
            end
          else s1
      end
  end.

(** [eventSource.onerror]. *)
Definition onerror (es : nat) (s : State) : State := close es s.

(** *** openOutputFolder ([Plain]) and handleDownload ([Listing]) *)

Definition openOutputFolder (throws : bool) (s : State) : State :=
  if throws then toast OpenOutputErrorToast s else toast OpeningOutputToast s.

Definition handleDownload (s : State) : State :=
  spawn DownloadFetch (send GetDownload s).

Definition handleDownload_response (r : nat) (o : option bool) (s : State) : State :=
  match o with
  | Some true => suspend r DownloadBlob s
  | _ => suspend r Finished (toast DownloadErrorToast s)
  end.

Definition handleDownload_blob (r : nat) (ok : bool) (s : State) : State :=
  if ok then suspend r Finished (toast DownloadStartedToast s)
  else suspend r Finished (toast DownloadErrorToast s).

End Handlers.

(** ** The transition system *)

(** [disabled={processing}] on the select button and
    [disabled={processing || !folderSelected}] on the process button. *)
Definition select_disabled (s : State) : bool := processing s.
Definition process_disabled (s : State) : bool := processing s || negb (folderSelected s).

Inductive Event : Type :=
| ClickSelect
| ClickProcess
| ClickOpenOutput (throws : bool)         (* whether window.open throws *)
| ClickDownload
| FetchSettles (r : nat) (o : option bool)
| JsonSettles (r : nat) (o : option JsValue)
| BlobSettles (r : nat) (ok : bool)
| Message (es : nat) (o : option JsValue)
| StreamError (es : nat).

(** An [EventSource] dispatches events only while it is not CLOSED. *)
Definition live (es : nat) (s : State) : bool :=
  match sources s !! es with
  | Some c => negb (closed c)
  | None => false
  end.

(** One task of the event loop; [None] when the event cannot occur in [s]:
    a click on a disabled or unrendered button, a settlement nobody awaits,
    an event of a closed or non-existent stream. *)
Definition step (v : Variant) (s : State) (e : Event) : option State :=
  match e with
  | ClickSelect =>
      if select_disabled s then None else Some (handleFolderSelect s)
  | ClickProcess =>
      if process_disabled s then None else Some (handleProcess s)
  | ClickOpenOutput throws =>
      match v, summary s with
      | Plain, Some _ => Some (openOutputFolder throws s)
      | _, _ => None
      end
  | ClickDownload =>
      match v, summary s with
      | Listing, Some _ => Some (handleDownload s)
      | _, _ => None
      end
  | FetchSettles r o =>
      match calls s !! r with
      | Some SelectFetch => Some (handleFolderSelect_response r o s)
      | Some UploadFetch => Some (handleUpload_response r o s)
      | Some (ReceiptsFetch k) => Some (fetchReceipts_response r k o s)
      | Some ProcessFetch => Some (handleProcess_response r o s)
      | Some DownloadFetch => Some (handleDownload_response r o s)
      | _ => None
      end
  | JsonSettles r o =>
      match calls s !! r with
      | Some SelectJson => Some (handleFolderSelect_body v r o s)
      | Some UploadJson => Some (handleUpload_body r o s)
      | Some (ReceiptsJson k) => Some (fetchReceipts_body r k o s)
      | Some (ProcessJson _) => Some (handleProcess_body r o s)
      | _ => None
      end
  | BlobSettles r ok =>
      match calls s !! r with
      | Some DownloadBlob => Some (handleDownload_blob r ok s)
      | _ => None
      end
  | Message es o => if live es s then Some (onmessage v es o s) else None
  | StreamError es => if live es s then Some (onerror es s) else None
  end.

(** The component as mounted: the [useState] initial values; in [Listing]
    the mount effect has called [fetchReceipts]. *)
Definition init (v : Variant) : State :=
  {| processing := false;
     progress := JNum 0;
     summary := None;
     folderSelected := false;
     receipts := JArr [];
     toasts := [];
     sources := [];
     calls := match v with Plain => [] | Listing => [ReceiptsFetch Detached] end;
     net := match v with Plain => [] | Listing => [GetReceipts] end |}.

(** Execute a sequence of events, each of which must be possible. *)
Fixpoint run (v : Variant) (s : State) (evs : list Event) : option State :=
  match evs with
  | [] => Some s
  | e :: rest =>
      match step v s e with
      | Some s' => run v s' rest
      | None => None
      end
  end.

(** ** Observations on states and traces *)

Definition starts_run (e : Event) : bool :=
  match e with ClickProcess => true | _ => false end.

(** No event of the trace starts a run. *)
Definition same_run (evs : list Event) : bool := forallb (fun e => negb (starts_run e)) evs.

Definition stream_event (e : Event) : bool :=
  match e with Message _ _ | StreamError _ => true | _ => false end.

(** An invocation of handleProcess that has not finished. *)
Definition process_pending (a : Await) : bool :=
  match a with ProcessFetch | ProcessJson _ => true | _ => false end.

(** A failed start call: the fetch rejects or the response is not ok. *)
Definition start_fails (o : option bool) : bool :=
  match o with Some true => false | _ => true end.

(** The progress values handed to [setProgress] by the messages of a trace. *)
Fixpoint delivered (evs : list Event) : list JsValue :=
  match evs with
  | [] => []
  | Message _ (Some data) :: rest =>
      match prop "progress" data with
      | Some p => p :: delivered rest
      | None => delivered rest
      end
  | _ :: rest => delivered rest
  end.

Fixpoint runs_started (l : list Request) : nat :=
  match l with
  | [] => 0
  | PostProcess :: rest => S (runs_started rest)
  | _ :: rest => runs_started rest
  end.

Fixpoint channels_requested (l : list Request) : nat :=
  match l with
  | [] => 0
  | GetProgress :: rest => S (channels_requested rest)
  | _ :: rest => channels_requested rest
  end.

Definition open_channels (s : State) : nat :=
  length (List.filter (fun c => negb (closed c)) (sources s)).

(** *** The progress display as the specification words it *)

Definition clamp (n : Z) : Z := Z.max 0 (Z.min 100 n).

(** The maximum of the values received so far, clamped to [0,100]; 0 before
    the first one. *)
Definition max_clamped (vals : list Z) : Z :=
  fold_left (fun acc n => Z.max acc (clamp n)) vals 0.

(** The server's contract: integers in [0,100], never decreasing. *)
Fixpoint nondecreasing_from (lo : Z) (vals : list Z) : bool :=
  match vals with
  | [] => true
  | n :: rest => (lo <=? n)%Z && (n <=? 100)%Z && nondecreasing_from n rest
  end.

(** ** Concrete executions *)

(** The state after a trace from the mounted component. *)
Definition after (v : Variant) (evs : list Event) : State :=
  default (init v) (run v (init v) evs).

(** A stream message [{progress: n}]. *)
Definition progress_msg (n : Z) : option JsValue := Some (JObj [("progress", JNum n)]).

(** A start-operation response body [{processed: p, total: t}]. *)
Definition counts (p t : JsValue) : JsValue := JObj [("processed", p); ("total", t)].

(** The folder is selected: invocation 0 of handleFolderSelect succeeds. *)
Definition select_ok : list Event :=
  [ClickSelect; FetchSettles 0 (Some true);
   JsonSettles 0 (Some (JObj [("success", JBool true)]))].

(** A run is started (invocation 1) and its response is ok: stream 0 opens. *)
Definition run_streaming : list Event :=
  select_ok ++ [ClickProcess; FetchSettles 1 (Some true)].

(** Scenario A: the start call returns [{processed: 7, total: 10}] before
    any stream message. *)
Definition scenario_A : list Event :=
  run_streaming ++ [JsonSettles 1 (Some (counts (JNum 7) (JNum 10)))].

(** Scenario B: the stream emits [{progress: 100}] before the start call
    resolves. *)
Definition scenario_B : list Event :=
  run_streaming ++ [Message 0 (progress_msg 100)].

(** *** The summary as the specification words it: exactly the fields of
    the response *)
Definition response_fields (data : JsValue) : option Summary :=
  match prop "processed" data, prop "total" data with
  | Some p, Some t => Some {| processed := p; total := t |}
  | _, _ => None
  end.

(** ** Invariants of reachable states *)

(** At most one invocation of handleProcess is pending, and only while
    [processing] is set. *)
Definition one_run (s : State) : Prop :=
  (forall r a, calls s !! r = Some a -> process_pending a = true -> processing s = true) /\
  (forall r1 r2 a1 a2,
      calls s !! r1 = Some a1 -> calls s !! r2 = Some a2 ->
      process_pending a1 = true -> process_pending a2 = true -> r1 = r2).

(** No summary is shown while a run is pending. *)
Definition no_summary_in_run (s : State) : Prop :=
  forall r a, calls s !! r = Some a -> process_pending a = true -> summary s = None.

(** [close()] has been called on the closed streams, once, and on no other. *)
Definition closed_once (s : State) : Prop :=
  forall es c, sources s !! es = Some c ->
               close_calls c = (if closed c then 1 else 0)%nat.

(** Every stream was requested by a run, after that run's own request. *)
Definition channels_of_runs (s : State) : Prop :=
  length (sources s) = channels_requested (net s) /\
  (channels_requested (net s) <= runs_started (net s))%nat /\
  (forall r, calls s !! r = Some ProcessFetch ->
             (channels_requested (net s) < runs_started (net s))%nat).

(** What one task does to the suspended calls, the [processing] flag and
    the summary. Only a click on the process button starts a run, and only
    the settling of that run's own [fetch] or body read advances or ends
    it. *)
Inductive Effect (s : State) (e : Event) (s' : State) : Prop :=
| KeepCalls :
    calls s' = calls s -> processing s' = processing s -> summary s' = summary s ->
    Effect s e s'
| Spawned (a : Await) :
    calls s' = calls s ++ [a] ->
    starts_run e = false -> process_pending a = false ->
    processing s' = processing s -> summary s' = summary s ->
    Effect s e s'
| Moved (r : nat) (a a' : Await) :
    calls s' = <[r := a']> (calls s) ->
    calls s !! r = Some a -> process_pending a = false -> process_pending a' = false ->
    processing s' = processing s -> summary s' = summary s ->
    Effect s e s'
| RunStarted :
    calls s' = calls s ++ [ProcessFetch] ->
    e = ClickProcess -> processing s = false -> folderSelected s = true ->
    processing s' = true -> summary s' = None ->
    Effect s e s'
| RunResponded (r es : nat) :
    calls s' = <[r := ProcessJson es]> (calls s) ->
    calls s !! r = Some ProcessFetch ->
    e = FetchSettles r (Some true) ->
    processing s' = processing s -> summary s' = summary s ->
    Effect s e s'
| RunFailed (r : nat) (a : Await) :
    calls s' = <[r := Finished]> (calls s) ->
    calls s !! r = Some a ->
    (exists o, e = FetchSettles r o /\ start_fails o = true /\ a = ProcessFetch) \/
    (exists o es, e = JsonSettles r o /\ a = ProcessJson es) ->
    processing s' = false -> summary s' = summary s ->
    Effect s e s'
| RunSucceeded (r es : nat) (data p t : JsValue) :
    calls s' = <[r := Finished]> (calls s) ->
    calls s !! r = Some (ProcessJson es) ->
    e = JsonSettles r (Some data) ->
    prop "processed" data = Some p -> prop "total" data = Some t ->
    processing s' = false ->
    summary s' = Some {| processed := Js.or p (JNum 0); total := Js.or t (JNum 0) |} ->
    Effect s e s'.

(** ** Further observations on states and traces *)

(** How many elements of a list satisfy a test. *)
Fixpoint count_if {A : Type} (f : A -> bool) (l : list A) : nat :=
  match l with
  | [] => 0
  | x :: rest => ((if f x then 1 else 0) + count_if f rest)%nat
  end.

(** The notification that ends a run, in either way. *)
Definition run_toast (t : Toast) : bool :=
  match t with
  | ProcessingCompleteToast _ | ProcessErrorToast => true
  | _ => false
  end.


Definition folder_toast (t : Toast) : bool :=
  match t with FolderSelectedToast => true | _ => false end.

Definition select_request (q : Request) : bool :=
  match q with PostSelectFolder => true | _ => false end.

(** A download: its request, the invocation while pending, and the
    notification that ends it. *)
Definition download_request (q : Request) : bool :=
  match q with GetDownload => true | _ => false end.

Definition awaits_download (a : Await) : bool :=
  match a with DownloadFetch | DownloadBlob => true | _ => false end.

Definition download_toast (t : Toast) : bool :=
  match t with DownloadStartedToast | DownloadErrorToast => true | _ => false end.

(** A value the summary can show: truthy, or the number 0 that [|| 0]
    puts in place of anything else. *)
Definition shown_count (x : JsValue) : bool := truthy x || strict_eq_num x 0.

(** An invocation of handleFolderSelect that is past its success check and
    waits for handleUpload ([Listing]). *)
Definition awaits_upload (a : Await) : bool :=
  match a with
  | UploadFetch | UploadJson | ReceiptsFetch FromUpload | ReceiptsJson FromUpload => true
  | _ => false
  end.

(** A folder-selection body that cannot be read: [response.json()]
    rejects, or reading [data.success] throws (the body is null). *)
Definition select_body_unreadable (o : option JsValue) : bool :=
  match o with
  | None => true
  | Some data => match prop "success" data with None => true | Some _ => false end
  end.

(** An invocation of handleProcess that awaits the response of its fetch. *)
Definition awaits_response (a : Await) : bool :=
  match a with ProcessFetch => true | _ => false end.

(** The events a given stream dispatches. *)
Definition event_of_stream (es : nat) (e : Event) : bool :=
  match e with
  | Message es' _ | StreamError es' => Nat.eqb es es'
  | _ => false
  end.

(** In [Listing] (invocation 0 is the mount's refresh): the folder is
    selected and the upload awaited. *)
Definition listing_selected : list Event :=
  [ClickSelect; FetchSettles 1 (Some true);
   JsonSettles 1 (Some (JObj [("success", JBool true)]))].

(** The upload fails, a run completes and its result is downloaded. *)
Definition listing_downloaded : list Event :=
  listing_selected ++
  [FetchSettles 1 None; ClickProcess; FetchSettles 2 (Some true);
   JsonSettles 2 (Some (counts (JNum 7) (JNum 10)));
   ClickDownload; FetchSettles 3 (Some true); BlobSettles 3 true].

(** ** The variant that simulates progress with a timer

    The first component of the second source file: [handleFolderSelect]
    and the buttons are those of [Plain]; [handleProcess] starts, once the
    response is ok, an interval whose callback advances [progress] by 10
    and clears the interval when it finds [progress] at 100 or more. There
    is no stream, so [progress] is always a number. *)

Module Simulated.

Record State : Type := {
  processing : bool;
  progress : Z;
  summary : option Summary;
  folderSelected : bool;
  toasts : list Toast;
  timers : list bool;      (* the intervals created; [true] while not cleared *)
  calls : list Await;
  net : list Request
}.

Definition setProcessing (b : bool) (s : State) : State :=
  {| processing := b; progress := progress s; summary := summary s;
     folderSelected := folderSelected s; toasts := toasts s;
     timers := timers s; calls := calls s; net := net s |}.

Definition setProgress (p : Z) (s : State) : State :=
  {| processing := processing s; progress := p; summary := summary s;
     folderSelected := folderSelected s; toasts := toasts s;
     timers := timers s; calls := calls s; net := net s |}.

Definition setSummary (m : option Summary) (s : State) : State :=
  {| processing := processing s; progress := progress s; summary := m;
     folderSelected := folderSelected s; toasts := toasts s;
     timers := timers s; calls := calls s; net := net s |}.

Definition setFolderSelected (b : bool) (s : State) : State :=
  {| processing := processing s; progress := progress s; summary := summary s;
     folderSelected := b; toasts := toasts s;
     timers := timers s; calls := calls s; net := net s |}.

Definition toast (t : Toast) (s : State) : State :=
  {| processing := processing s; progress := progress s; summary := summary s;
     folderSelected := folderSelected s; toasts := toasts s ++ [t];
     timers := timers s; calls := calls s; net := net s |}.

Definition set_timers (l : list bool) (s : State) : State :=
  {| processing := processing s; progress := progress s; summary := summary s;
     folderSelected := folderSelected s; toasts := toasts s;
     timers := l; calls := calls s; net := net s |}.

Definition set_calls (l : list Await) (s : State) : State :=
  {| processing := processing s; progress := progress s; summary := summary s;
     folderSelected := folderSelected s; toasts := toasts s;
     timers := timers s; calls := l; net := net s |}.

Definition set_net (l : list Request) (s : State) : State :=
  {| processing := processing s; progress := progress s; summary := summary s;
     folderSelected := folderSelected s; toasts := toasts s;
     timers := timers s; calls := calls s; net := l |}.

Definition send (q : Request) (s : State) : State := set_net (net s ++ [q]) s.
Definition spawn (a : Await) (s : State) : State := set_calls (calls s ++ [a]) s.
Definition suspend (r : nat) (a : Await) (s : State) : State :=
  set_calls (<[r := a]> (calls s)) s.

(** [setInterval(...)]: the new interval's index is its handle. *)
Definition setInterval (s : State) : nat * State :=
  (length (timers s), set_timers (timers s ++ [true]) s).

Definition clearInterval (i : nat) (s : State) : State :=
  set_timers (<[i := false]> (timers s)) s.

(** *** handleFolderSelect *)

Definition handleFolderSelect (s : State) : State :=
  spawn SelectFetch (send PostSelectFolder s).

Definition handleFolderSelect_catch (r : nat) (s : State) : State :=
  suspend r Finished (toast SelectErrorToast s).

Definition handleFolderSelect_response (r : nat) (o : option bool) (s : State) : State :=
  match o with
  | Some true => suspend r SelectJson s
  | _ => handleFolderSelect_catch r s
  end.

Definition handleFolderSelect_body (r : nat) (o : option JsValue) (s : State) : State :=
  match o with
  | None => handleFolderSelect_catch r s
  | Some data =>
      match prop "success" data with
      | None => handleFolderSelect_catch r s
      | Some success =>
          if truthy success
          then suspend r Finished (toast FolderSelectedToast (setFolderSelected true s))
          else suspend r Finished s
      end
  end.

(** *** handleProcess *)

Definition handleProcess (s : State) : State :=
  spawn ProcessFetch
    (send PostProcess (setSummary None (setProgress 0 (setProcessing true s)))).

Definition handleProcess_catch (r : nat) (s : State) : State :=
  suspend r Finished (setProcessing false (toast ProcessErrorToast s)).

Definition handleProcess_response (r : nat) (o : option bool) (s : State) : State :=
  match o with
  | Some true =>
      let (interval, s1) := setInterval s in
      suspend r (ProcessJson interval) s1
  | _ => handleProcess_catch r s
  end.

Definition handleProcess_body (r : nat) (o : option JsValue) (s : State) : State :=
  match o with
  | None => handleProcess_catch r s
  | Some data =>
      match prop "processed" data, prop "total" data with
      | Some p, Some t =>
          suspend r Finished
            (setProcessing false
               (toast (ProcessingCompleteToast p)
                  (setSummary
                     (Some {| processed := Js.or p (JNum 0);
                              total := Js.or t (JNum 0) |}) s)))
      | _, _ => handleProcess_catch r s
      end
  end.

(** The interval's callback: [setProgress(prev => ...)] with the updater
    applied to the current value. *)
Definition tick (interval : nat) (s : State) : State :=
  if (100 <=? progress s)%Z
  then setProgress 100 (clearInterval interval s)
  else setProgress (progress s + 10) s.

(** *** The transition system *)

Inductive Event : Type :=
| ClickSelect
| ClickProcess
| FetchSettles (r : nat) (o : option bool)
| JsonSettles (r : nat) (o : option JsValue)
| Tick (interval : nat).

(** A cleared interval fires no more. *)
Definition ticking (i : nat) (s : State) : bool :=
  match timers s !! i with
  | Some b => b
  | None => false
  end.

Definition step (s : State) (e : Event) : option State :=
  match e with
  | ClickSelect =>
      if processing s then None else Some (handleFolderSelect s)
  | ClickProcess =>
      if processing s || negb (folderSelected s) then None else Some (handleProcess s)
  | FetchSettles r o =>
      match calls s !! r with
      | Some SelectFetch => Some (handleFolderSelect_response r o s)
      | Some ProcessFetch => Some (handleProcess_response r o s)
      | _ => None
      end
  | JsonSettles r o =>
      match calls s !! r with
      | Some SelectJson => Some (handleFolderSelect_body r o s)
      | Some (ProcessJson _) => Some (handleProcess_body r o s)
      | _ => None
      end
  | Tick i => if ticking i s then Some (tick i s) else None
  end.

Definition init : State :=
  {| processing := false; progress := 0; summary := None; folderSelected := false;
     toasts := []; timers := []; calls := []; net := [] |}.

Fixpoint run (s : State) (evs : list Event) : option State :=
  match evs with
  | [] => Some s
  | e :: rest =>
      match step s e with
      | Some s' => run s' rest
      | None => None
      end
  end.

Definition after (evs : list Event) : State := default init (run init evs).

Definition starts_run (e : Event) : bool :=
  match e with ClickProcess => true | _ => false end.

Definition same_run (evs : list Event) : bool := forallb (fun e => negb (starts_run e)) evs.

Definition is_tick (e : Event) : bool :=
  match e with Tick _ => true | _ => false end.

(** Neither a tick nor the start of a run: a click on the select button or
    an answer of the backend. *)
Definition leaves_progress (e : Event) : bool := negb (is_tick e) && negb (starts_run e).

(** The firings of one interval. *)
Definition tick_of (i : nat) (e : Event) : bool :=
  match e with Tick j => Nat.eqb i j | _ => false end.

(** What an interval can still add to the progress before it is cleared:
    nothing once cleared; otherwise the distance to 100 and the one firing
    that finds the progress there. *)
Definition budget (i : nat) (s : State) : Z :=
  match timers s !! i with
  | Some false => 0
  | _ => 110 - progress s
  end.

(** The folder is selected and a run is started whose response is ok:
    interval 0 is set. *)
Definition run_ticking : list Event :=
  [ClickSelect; FetchSettles 0 (Some true);
   JsonSettles 0 (Some (JObj [("success", JBool true)]));
   ClickProcess; FetchSettles 1 (Some true)].

End Simulated.

(** ** Proof automation *)

Ltac unfold_state :=
  unfold suspend, spawn, send, close, toast, set_sources, set_calls, set_net,
    setProcessing, setProgress, setSummary, setFolderSelected, setReceipts in *.

Ltac unfold_handlers :=
  unfold handleFolderSelect, handleFolderSelect_response, handleFolderSelect_body,
    handleFolderSelect_catch, handleUpload_response, handleUpload_body,
    fetchReceipts_response, fetchReceipts_body, fetchReceipts_return,
    handleProcess, handleProcess_response, handleProcess_body, handleProcess_catch,
    onmessage, onerror, openOutputFolder, handleDownload, handleDownload_response,
    handleDownload_blob, newEventSource in *.

(** Split a step into the branches of the handler it runs. *)
Ltac step_cases H :=
  unfold step, select_disabled, process_disabled in H;
  repeat case_match; try discriminate H;
  injection H as <-;
  unfold_handlers; repeat case_match; unfold_state; simpl in *.

(** Case analysis on a lookup in an extended or updated list of calls. *)
Ltac lookup_cases :=
  repeat match goal with
    | H : (?l ++ [_]) !! ?i = Some _ |- _ =>
        apply lookup_app_Some in H as [H | [? H]];
        [| apply list_lookup_singleton_Some in H as [? ?];
           assert (i = length l) by lia ]
    | H : <[_ := _]> _ !! _ = Some _ |- _ =>
        apply list_lookup_insert_Some in H as [(? & ? & ?) | [? H]]
    end;
  simplify_eq.

Ltac sim_step_cases H :=
  unfold Simulated.step in H;
  repeat case_match; try discriminate H;
  injection H as <-;
  unfold Simulated.handleFolderSelect, Simulated.handleFolderSelect_response,
    Simulated.handleFolderSelect_body, Simulated.handleFolderSelect_catch,
    Simulated.handleProcess, Simulated.handleProcess_response,
    Simulated.handleProcess_body, Simulated.handleProcess_catch,
    Simulated.tick, Simulated.setInterval, Simulated.clearInterval in *;
  repeat case_match;
  unfold Simulated.suspend, Simulated.spawn, Simulated.send, Simulated.toast,
    Simulated.set_timers, Simulated.set_calls, Simulated.set_net,
    Simulated.setProcessing, Simulated.setProgress, Simulated.setSummary,
    Simulated.setFolderSelected in *;
  simpl in *.

(** ** Lemmas on the transition system *)

Lemma step_effect v s e s' : step v s e = Some s' -> Effect s e s'.
Proof.
  intros H. step_cases H; subst.
  all: try (match goal with
            | H : _ || _ = false |- _ => apply orb_false_elim in H as [? ?%negb_false_iff]
            end).
  all: try solve [apply KeepCalls; reflexivity].
  all: try solve [eapply Spawned; simpl; [reflexivity..]].
  all: try solve [eapply RunStarted; simpl; [reflexivity || eassumption..]].
  all: try solve [eapply RunResponded; simpl; [reflexivity || eassumption..]].
  all: try solve [eapply RunSucceeded; simpl; [reflexivity || eassumption..]].
  all: try solve [eapply Moved; simpl; [reflexivity || eassumption..]].
  all: try solve [eapply RunFailed; simpl;
                  [reflexivity | eassumption | | reflexivity..];
                  first [left; eexists; repeat split; reflexivity
                        | right; do 2 eexists; split; reflexivity]].
Qed.

Lemma one_run_init v : one_run (init v).
Proof.
  split.
  - intros r a H Hp. destruct v, r as [|r]; simpl in H; try discriminate.
    injection H as <-. discriminate.
  - intros r1 r2 a1 a2 H1 _ Hp1 _.
    destruct v, r1 as [|r1]; simpl in H1; try discriminate.
    injection H1 as <-. discriminate.
Qed.

Lemma one_run_step v s e s' : step v s e = Some s' -> one_run s -> one_run s'.
Proof.
  intros H [Hflag Huniq]. apply step_effect in H.
  assert (Hnone : processing s = false ->
                  forall r a, calls s !! r = Some a -> process_pending a = false).
  { intros Hf r a Hl. destruct (process_pending a) eqn:E; [|done].
    rewrite (Hflag r a Hl E) in Hf. discriminate. }
  destruct H as [Hc Hp Hs | a Hc He Ha Hp Hs | r a a' Hc Hl Ha Ha' Hp Hs
                | Hc He Hf Hsel Hp Hs | r es Hc Hl He Hp Hs
                | r a Hc Hl He Hp Hs | r es data p t Hc Hl He Hpp Hpt Hp Hs].
  all: try (assert (Pa : process_pending a = true)
             by (destruct He as [(o & _ & _ & ->) | (o & es & _ & ->)]; reflexivity)).
  all: split; rewrite Hc, ?Hp; try done.
  all: intros.
  all: lookup_cases; try congruence; eauto.
  all: try (exfalso; eauto; fail).
  all: try match goal with
           | Hl : calls _ !! _ = Some ?a, P : process_pending ?a = true |- _ =>
               rewrite (Hnone Hf _ _ Hl) in P; discriminate
           end.
Qed.

Lemma no_summary_in_run_step v s e s' :
  step v s e = Some s' -> one_run s -> no_summary_in_run s -> no_summary_in_run s'.
Proof.
  intros H [Hflag Huniq] Hinv. apply step_effect in H.
  destruct H as [Hc Hp Hs | a Hc He Ha Hp Hs | r a a' Hc Hl Ha Ha' Hp Hs
                | Hc He Hf Hsel Hp Hs | r es Hc Hl He Hp Hs
                | r a Hc Hl He Hp Hs | r es data p t Hc Hl He Hpp Hpt Hp Hs];
    intros r0 b Hl0 Hb; rewrite Hc in Hl0; rewrite ?Hs; try done;
    lookup_cases; try discriminate; try congruence; eauto.
  exfalso. eauto.
Qed.

Lemma closed_once_step v s e s' :
  step v s e = Some s' -> closed_once s -> closed_once s'.
Proof.
  intros H Hinv. step_cases H; subst; try exact Hinv.
  all: intros es0 c Hl0; simpl in Hl0.
  all: try (apply lookup_app_Some in Hl0 as [Hl0 | [_ Hl0]];
            [eauto | apply list_lookup_singleton_Some in Hl0 as [_ <-]; reflexivity]).
  all: rewrite list_lookup_alter in Hl0; case_decide; subst; eauto.
  all: unfold live in *; destruct (sources s !! es0) as [c0|] eqn:E; try discriminate.
  all: injection Hl0 as <-; simpl.
  all: rewrite (Hinv _ _ E).
  all: by destruct (closed c0).
Qed.

Lemma runs_started_snoc l q :
  runs_started (l ++ [q]) =
  (runs_started l + match q with PostProcess => 1 | _ => 0 end)%nat.
Proof.
  induction l as [|q0 l IH]; simpl.
  - by destruct q.
  - destruct q0; simpl; rewrite IH; lia.
Qed.

Lemma channels_requested_snoc l q :
  channels_requested (l ++ [q]) =
  (channels_requested l + match q with GetProgress => 1 | _ => 0 end)%nat.
Proof.
  induction l as [|q0 l IH]; simpl.
  - by destruct q.
  - destruct q0; simpl; rewrite IH; lia.
Qed.

Lemma channels_of_runs_init v : channels_of_runs (init v).
Proof.
  repeat split; destruct v; simpl; try lia.
  - intros r H. by rewrite lookup_nil in H.
  - intros [|r] H; simpl in H; [discriminate | by rewrite lookup_nil in H].
Qed.

Lemma channels_of_runs_step v s e s' :
  step v s e = Some s' -> one_run s -> channels_of_runs s -> channels_of_runs s'.
Proof.
  intros H [Hflag Huniq] (Hlen & Hle & Hlt).
  step_cases H; subst; unfold channels_of_runs; simpl.
  all: rewrite ?runs_started_snoc, ?channels_requested_snoc, ?length_app, ?length_alter; simpl.
  all: try match goal with
           | Hl : calls _ !! _ = Some ProcessFetch |- _ => pose proof (Hlt _ Hl)
           end.
  all: split; [lia | split; [lia |]].
  all: intros r0 Hl0; lookup_cases;
    try match goal with
        | Hl : calls _ !! _ = Some ProcessFetch |- _ => pose proof (Hlt _ Hl)
        end; try lia.
  exfalso. apply H0. by apply (Huniq r r0 ProcessFetch ProcessFetch).
Qed.

(** The invariants hold in every state the component can reach. *)
Lemma run_invariant (P : State -> Prop) v s evs s' :
  (forall s1 e s2, step v s1 e = Some s2 -> P s1 -> P s2) ->
  run v s evs = Some s' -> P s -> P s'.
Proof.
  intros Hstep. revert s. induction evs as [|e evs IH]; intros s; simpl.
  - by intros [= <-].
  - destruct (step v s e) as [s1|] eqn:E; [|done]. eauto.
Qed.

Lemma reachable_one_run v evs s : run v (init v) evs = Some s -> one_run s.
Proof.
  intros H. eapply (run_invariant one_run); eauto using one_run_step, one_run_init.
Qed.

Lemma reachable_no_summary_in_run v evs s :
  run v (init v) evs = Some s -> no_summary_in_run s.
Proof.
  intros H.
  cut (one_run s /\ no_summary_in_run s); [by intros [_ ?] |].
  eapply (run_invariant (fun s => one_run s /\ no_summary_in_run s)); [| exact H |].
  - intros s1 e s2 Hs [H1 H2].
    eauto using one_run_step, no_summary_in_run_step.
  - split; [apply one_run_init |].
    intros r a Hl _. reflexivity.
Qed.

Lemma reachable_closed_once v evs s : run v (init v) evs = Some s -> closed_once s.
Proof.
  intros H. eapply (run_invariant closed_once); eauto using closed_once_step.
  intros es c Hl. simpl in Hl. by rewrite lookup_nil in Hl.
Qed.

Lemma reachable_channels_of_runs v evs s :
  run v (init v) evs = Some s -> channels_of_runs s.
Proof.
  intros H.
  cut (one_run s /\ channels_of_runs s); [by intros [_ ?] |].
  eapply (run_invariant (fun s => one_run s /\ channels_of_runs s)); [| exact H |].
  - intros s1 e s2 Hs [H1 H2].
    eauto using one_run_step, channels_of_runs_step.
  - split; [apply one_run_init | apply channels_of_runs_init].
Qed.

(** ** The two arrival orders of the specification's scenarios *)

(** Scenario A: the summary shows 7 / 10 at once, the bar is still at 0 and
    the stream is open. *)
Example scenario_A_display :
  summary (after Plain scenario_A) = Some {| processed := JNum 7; total := JNum 10 |} /\
  progress (after Plain scenario_A) = JNum 0 /\
  processing (after Plain scenario_A) = false /\
  live 0 (after Plain scenario_A) = true.
Proof. vm_compute. repeat split. Qed.

(** Scenario B: the bar shows 100 and the stream is closed, the summary is
    absent and the run still in progress. *)
Example scenario_B_display :
  progress (after Plain scenario_B) = JNum 100 /\
  summary (after Plain scenario_B) = None /\
  processing (after Plain scenario_B) = true /\
  live 0 (after Plain scenario_B) = false.
Proof. vm_compute. repeat split. Qed.

(** * The claims *)

(** ** The folder-selection gate *)

(** C8. The start operation is not invocable unless the folder-selection
    step has signalled readiness: whenever the folder-selected flag is false
    or a run is in progress, the process button is disabled, the click is
    not dispatched, and nothing that can happen in that state issues a
    POST /process request. *)
Theorem process_gated v s :
  folderSelected s = false \/ processing s = true ->
  process_disabled s = true /\
  step v s ClickProcess = None /\
  (forall e s', step v s e = Some s' -> runs_started (net s') = runs_started (net s)).
Proof.
  intros Hgate.
  assert (Hd : process_disabled s = true).
  { unfold process_disabled. destruct Hgate as [-> | ->]; [apply orb_true_r | done]. }
  split; [done |]. split; [simpl; by rewrite Hd |].
  intros e s' H. destruct e; try (simpl in H; rewrite Hd in H; discriminate H).
  all: step_cases H; subst.
  all: rewrite ?runs_started_snoc; simpl; lia.
Qed.

Lemma process_gated_witness :
  process_disabled (init Plain) = true /\
  step Plain (init Plain) ClickProcess = None /\
  (forall e s', step Plain (init Plain) e = Some s' ->
                runs_started (net s') = runs_started (net (init Plain))).
Proof. apply (process_gated Plain (init Plain)). left. reflexivity. Defined.

Lemma folderSelected_step v s e s' :
  step v s e = Some s' -> folderSelected s = true -> folderSelected s' = true.
Proof. intros H Hsel. step_cases H; subst; done. Qed.

(** C9. The folder-selected flag is monotone: it starts false, only a
    successful folder selection (an ok response whose body has a truthy
    [success]) sets it, and no later operation resets it, so from then on
    the process button is disabled exactly while a run is in progress. *)
Theorem folderSelected_monotone v s e s' evs s'' :
  step v s e = Some s' ->
  run v s' evs = Some s'' ->
  folderSelected (init v) = false /\
  (folderSelected s = false -> folderSelected s' = true ->
   exists r data success,
     e = JsonSettles r (Some data) /\ calls s !! r = Some SelectJson /\
     prop "success" data = Some success /\ truthy success = true) /\
  (folderSelected s' = true ->
   folderSelected s'' = true /\ process_disabled s'' = processing s'').
Proof.
  intros Hstep Hrun. split; [done |]. split.
  - intros Hf Ht. step_cases Hstep; subst; simpl in *; try congruence.
    all: eauto 10.
  - intros Hsel.
    assert (Hsel'' : folderSelected s'' = true).
    { eapply (run_invariant (fun s => folderSelected s = true)); eauto.
      intros; eapply folderSelected_step; eauto. }
    split; [done |]. unfold process_disabled. rewrite Hsel''. apply orb_false_r.
Qed.

Lemma folderSelected_monotone_witness :
  folderSelected (init Plain) = false /\
  (folderSelected (after Plain [ClickSelect; FetchSettles 0 (Some true)]) = false ->
   folderSelected (after Plain select_ok) = true ->
   exists r data success,
     JsonSettles 0 (Some (JObj [("success", JBool true)])) = JsonSettles r (Some data) /\
     calls (after Plain [ClickSelect; FetchSettles 0 (Some true)]) !! r = Some SelectJson /\
     prop "success" data = Some success /\ truthy success = true) /\
  (folderSelected (after Plain select_ok) = true ->
   folderSelected (after Plain scenario_A) = true /\
   process_disabled (after Plain scenario_A) = processing (after Plain scenario_A)).
Proof.
  apply (folderSelected_monotone Plain
           (after Plain [ClickSelect; FetchSettles 0 (Some true)])
           (JsonSettles 0 (Some (JObj [("success", JBool true)])))
           (after Plain select_ok)
           [ClickProcess; FetchSettles 1 (Some true);
            JsonSettles 1 (Some (counts (JNum 7) (JNum 10)))]
           (after Plain scenario_A)); vm_compute; reflexivity.
Defined.

(** The silent end of handleFolderSelect: when the response is ok but its
    body's [success] is false (or otherwise falsy), the folder-selected
    flag and every other piece of state are as before, no notification is
    raised and no request is issued; only the invocation itself is over. *)
Theorem select_unsuccessful_silent v s r data success :
  calls s !! r = Some SelectJson ->
  prop "success" data = Some success ->
  truthy success = false ->
  exists s',
    step v s (JsonSettles r (Some data)) = Some s' /\
    s' = suspend r Finished s /\
    folderSelected s' = folderSelected s /\
    toasts s' = toasts s /\
    net s' = net s /\
    processing s' = processing s /\ progress s' = progress s /\
    summary s' = summary s /\ receipts s' = receipts s /\ sources s' = sources s.
Proof.
  intros Hl Hp Hf. eexists. split.
  - simpl. rewrite Hl. unfold handleFolderSelect_body. rewrite Hp, Hf. reflexivity.
  - repeat split.
Qed.

Lemma select_unsuccessful_silent_witness :
  exists s',
    step Plain (after Plain [ClickSelect; FetchSettles 0 (Some true)])
         (JsonSettles 0 (Some (JObj [("success", JBool false)]))) = Some s' /\
    s' = suspend 0 Finished (after Plain [ClickSelect; FetchSettles 0 (Some true)]) /\
    folderSelected s' = folderSelected (after Plain [ClickSelect; FetchSettles 0 (Some true)]) /\
    toasts s' = toasts (after Plain [ClickSelect; FetchSettles 0 (Some true)]) /\
    net s' = net (after Plain [ClickSelect; FetchSettles 0 (Some true)]) /\
    processing s' = processing (after Plain [ClickSelect; FetchSettles 0 (Some true)]) /\
    progress s' = progress (after Plain [ClickSelect; FetchSettles 0 (Some true)]) /\
    summary s' = summary (after Plain [ClickSelect; FetchSettles 0 (Some true)]) /\
    receipts s' = receipts (after Plain [ClickSelect; FetchSettles 0 (Some true)]) /\
    sources s' = sources (after Plain [ClickSelect; FetchSettles 0 (Some true)]).
Proof.
  apply (select_unsuccessful_silent Plain
           (after Plain [ClickSelect; FetchSettles 0 (Some true)]) 0
           (JObj [("success", JBool false)]) (JBool false)); vm_compute; reflexivity.
Defined.

Lemma snoc_neq {A} (l : list A) (x : A) : l ++ [x] <> l.
Proof. intros H. apply (f_equal length) in H. rewrite length_app in H. simpl in H. lia. Qed.

Lemma snoc_inj {A} (l : list A) (x y : A) : l ++ [x] = l ++ [y] -> x = y.
Proof. intros H. apply app_inv_head in H. by injection H. Qed.

(** C10 (as the code has it). When the folder-selection response is ok and
    its body's [success] is false (or otherwise falsy), the handler ends
    silently: the folder-selected flag and every other piece of state are
    as before, no notification is raised and no request is issued. The
    error path runs exactly when the fetch rejects, the response is not
    ok, or the body of an ok response cannot be read (it is not JSON, or
    it is null); it raises the error notification and leaves the flag as
    it was. *)
Theorem select_silent_or_error_path v s r a e s' :
  calls s !! r = Some a ->
  step v s e = Some s' ->
  (a = SelectFetch /\ exists o, e = FetchSettles r o) \/
  (a = SelectJson /\ exists o, e = JsonSettles r o) ->
  (forall data success,
      e = JsonSettles r (Some data) ->
      prop "success" data = Some success -> truthy success = false ->
      s' = suspend r Finished s /\
      folderSelected s' = folderSelected s /\ toasts s' = toasts s /\ net s' = net s /\
      processing s' = processing s /\ progress s' = progress s /\
      summary s' = summary s /\ receipts s' = receipts s /\ sources s' = sources s) /\
  (toasts s' = toasts s ++ [SelectErrorToast] <->
   (exists o, e = FetchSettles r o /\ start_fails o = true) \/
   (exists o, e = JsonSettles r o /\ select_body_unreadable o = true)) /\
  (toasts s' = toasts s ++ [SelectErrorToast] ->
   folderSelected s' = folderSelected s /\ net s' = net s /\
   calls s' !! r = Some Finished).
Proof.
  intros Hl Hstep Hev.
  assert (Hlt : (r < length (calls s))%nat) by (eapply lookup_lt_Some; eauto).
  split; [| split].
  - intros data success -> Hp Hf.
    destruct (select_unsuccessful_silent v s r data success) as (s1 & H1 & H2);
      try done.
    + destruct Hev as [[-> _] | [-> _]]; [| done].
      cbn [step] in Hstep. by rewrite Hl in Hstep.
    + rewrite H1 in Hstep. by injection Hstep as <-.
  - destruct Hev as [[-> [o ->]] | [-> [o ->]]];
      cbn [step] in Hstep; rewrite Hl in Hstep; injection Hstep as <-.
    + unfold handleFolderSelect_response. destruct o as [[|]|]; simpl; split.
      all: try (intros H; exfalso; symmetry in H; by apply snoc_neq in H).
      all: try (intros _; left; eexists; split; reflexivity).
      all: try done.
      intros [(o & [= <-] & Hf) | (o & [=] & _)]. discriminate Hf.
    + unfold handleFolderSelect_body, select_body_unreadable.
      destruct o as [data|]; [destruct (prop "success" data) as [success|] eqn:Hp |].
      * split.
        -- intros H. exfalso.
           destruct (truthy success), v; simpl in H;
             first [ apply snoc_inj in H; discriminate H
                   | symmetry in H; by apply snoc_neq in H ].
        -- intros [(o & [=] & _) | (o & [= <-] & Hu)]. simpl in Hu.
           rewrite Hp in Hu. discriminate Hu.
      * split; [| done]. intros _. right. eexists. split; [reflexivity |].
        simpl. by rewrite Hp.
      * split; [| done]. intros _. right. eexists. split; reflexivity.
  - destruct Hev as [[-> [o ->]] | [-> [o ->]]];
      cbn [step] in Hstep; rewrite Hl in Hstep; injection Hstep as <-.
    + unfold handleFolderSelect_response. destruct o as [[|]|]; simpl; intros H.
      all: try (exfalso; symmetry in H; by apply snoc_neq in H).
      all: repeat split; by apply list_lookup_insert_eq.
    + unfold handleFolderSelect_body.
      destruct o as [data|]; [destruct (prop "success" data) as [success|] |];
        simpl; intros H.
      * exfalso. destruct (truthy success), v; simpl in H;
          first [ apply snoc_inj in H; discriminate H
                | symmetry in H; by apply snoc_neq in H ].
      * repeat split; by apply list_lookup_insert_eq.
      * repeat split; by apply list_lookup_insert_eq.
Qed.

Lemma select_silent_or_error_path_witness :
  (forall data success,
      JsonSettles 0 (Some (JObj [("success", JBool false)])) = JsonSettles 0 (Some data) ->
      prop "success" data = Some success -> truthy success = false ->
      after Plain [ClickSelect; FetchSettles 0 (Some true);
                   JsonSettles 0 (Some (JObj [("success", JBool false)]))] =
        suspend 0 Finished (after Plain [ClickSelect; FetchSettles 0 (Some true)]) /\
      folderSelected (after Plain [ClickSelect; FetchSettles 0 (Some true);
                                   JsonSettles 0 (Some (JObj [("success", JBool false)]))]) =
        folderSelected (after Plain [ClickSelect; FetchSettles 0 (Some true)]) /\
      toasts (after Plain [ClickSelect; FetchSettles 0 (Some true);
                           JsonSettles 0 (Some (JObj [("success", JBool false)]))]) =
        toasts (after Plain [ClickSelect; FetchSettles 0 (Some true)]) /\
      net (after Plain [ClickSelect; FetchSettles 0 (Some true);
                        JsonSettles 0 (Some (JObj [("success", JBool false)]))]) =
        net (after Plain [ClickSelect; FetchSettles 0 (Some true)]) /\
      processing (after Plain [ClickSelect; FetchSettles 0 (Some true);
                               JsonSettles 0 (Some (JObj [("success", JBool false)]))]) =
        processing (after Plain [ClickSelect; FetchSettles 0 (Some true)]) /\
      progress (after Plain [ClickSelect; FetchSettles 0 (Some true);
                             JsonSettles 0 (Some (JObj [("success", JBool false)]))]) =
        progress (after Plain [ClickSelect; FetchSettles 0 (Some true)]) /\
      summary (after Plain [ClickSelect; FetchSettles 0 (Some true);
                            JsonSettles 0 (Some (JObj [("success", JBool false)]))]) =
        summary (after Plain [ClickSelect; FetchSettles 0 (Some true)]) /\
      receipts (after Plain [ClickSelect; FetchSettles 0 (Some true);
                             JsonSettles 0 (Some (JObj [("success", JBool false)]))]) =
        receipts (after Plain [ClickSelect; FetchSettles 0 (Some true)]) /\
      sources (after Plain [ClickSelect; FetchSettles 0 (Some true);
                            JsonSettles 0 (Some (JObj [("success", JBool false)]))]) =
        sources (after Plain [ClickSelect; FetchSettles 0 (Some true)])) /\
  (toasts (after Plain [ClickSelect; FetchSettles 0 (Some true);
                        JsonSettles 0 (Some (JObj [("success", JBool false)]))]) =
     toasts (after Plain [ClickSelect; FetchSettles 0 (Some true)]) ++ [SelectErrorToast] <->
   (exists o, JsonSettles 0 (Some (JObj [("success", JBool false)])) = FetchSettles 0 o /\
              start_fails o = true) \/
   (exists o, JsonSettles 0 (Some (JObj [("success", JBool false)])) = JsonSettles 0 o /\
              select_body_unreadable o = true)) /\
  (toasts (after Plain [ClickSelect; FetchSettles 0 (Some true);
                        JsonSettles 0 (Some (JObj [("success", JBool false)]))]) =
     toasts (after Plain [ClickSelect; FetchSettles 0 (Some true)]) ++ [SelectErrorToast] ->
   folderSelected (after Plain [ClickSelect; FetchSettles 0 (Some true);
                                JsonSettles 0 (Some (JObj [("success", JBool false)]))]) =
     folderSelected (after Plain [ClickSelect; FetchSettles 0 (Some true)]) /\
   net (after Plain [ClickSelect; FetchSettles 0 (Some true);
                     JsonSettles 0 (Some (JObj [("success", JBool false)]))]) =
     net (after Plain [ClickSelect; FetchSettles 0 (Some true)]) /\
   calls (after Plain [ClickSelect; FetchSettles 0 (Some true);
                       JsonSettles 0 (Some (JObj [("success", JBool false)]))]) !! 0%nat =
     Some Finished).
Proof.
  apply (select_silent_or_error_path Plain
           (after Plain [ClickSelect; FetchSettles 0 (Some true)]) 0 SelectJson
           (JsonSettles 0 (Some (JObj [("success", JBool false)])))
           (after Plain [ClickSelect; FetchSettles 0 (Some true);
                         JsonSettles 0 (Some (JObj [("success", JBool false)]))]));
    [vm_compute; reflexivity | vm_compute; reflexivity |].
  right. split; [reflexivity | eexists; reflexivity].
Defined.

(** C10 as stated fails in its last clause: the fetch resolves with an ok
    response, yet a body that is not JSON, or the body null, takes the
    error path and raises the error notification. *)
Lemma select_error_on_unreadable_body :
  run Plain (init Plain) [ClickSelect; FetchSettles 0 (Some true); JsonSettles 0 None] =
    Some (after Plain [ClickSelect; FetchSettles 0 (Some true); JsonSettles 0 None]) /\
  start_fails (Some true) = false /\
  calls (after Plain [ClickSelect; FetchSettles 0 (Some true)]) !! 0%nat = Some SelectJson /\
  toasts (after Plain [ClickSelect; FetchSettles 0 (Some true); JsonSettles 0 None]) =
    [SelectErrorToast] /\
  run Plain (init Plain) [ClickSelect; FetchSettles 0 (Some true); JsonSettles 0 (Some JNull)] =
    Some (after Plain [ClickSelect; FetchSettles 0 (Some true); JsonSettles 0 (Some JNull)]) /\
  toasts (after Plain [ClickSelect; FetchSettles 0 (Some true); JsonSettles 0 (Some JNull)]) =
    [SelectErrorToast].
Proof. vm_compute. repeat split. Qed.

(** ** Runs and their summary *)

(** Outside a run nothing but a click on the process button touches the
    summary or sets the [processing] flag. *)
Lemma idle_stable v s evs s' :
  one_run s -> processing s = false ->
  run v s evs = Some s' -> same_run evs = true ->
  summary s' = summary s /\ processing s' = false.
Proof.
  revert s. induction evs as [|e evs IH]; intros s Hone Hidle Hrun Hsame; simpl in *.
  - by injection Hrun as <-.
  - destruct (step v s e) as [s1|] eqn:Hstep; [|done].
    apply andb_prop in Hsame as [He Hsame]. apply negb_true_iff in He.
    assert (Hkeep : summary s1 = summary s /\ processing s1 = false).
    { destruct Hone as [Hflag _].
      destruct (step_effect _ _ _ _ Hstep)
        as [Hc Hp Hs | a Hc He' Ha Hp Hs | r a a' Hc Hl Ha Ha' Hp Hs
           | Hc He' Hf Hsel Hp Hs | r es Hc Hl He' Hp Hs
           | r a Hc Hl He' Hp Hs | r es data p t Hc Hl He' Hpp Hpt Hp Hs].
      1-3: split; congruence.
      - subst e. discriminate.
      - pose proof (Hflag _ _ Hl eq_refl). congruence.
      - assert (process_pending a = true)
          by (destruct He' as [(o & _ & _ & ->) | (o & es & _ & ->)]; reflexivity).
        pose proof (Hflag _ _ Hl ltac:(done)). congruence.
      - pose proof (Hflag _ _ Hl eq_refl). congruence. }
    destruct Hkeep as [Hs1 Hp1].
    destruct (IH s1) as [Hs' Hp']; eauto using one_run_step.
    split; congruence.
Qed.

(** C1 (as the code has it). When the response of a run is ok and its body
    parses to a value [data] whose fields can be read, the summary set at
    the end of the run is [{processed: data.processed || 0, total:
    data.total || 0}]: exactly the response's fields when these are
    numbers, and 0 in place of a missing or falsy field. This holds
    whatever happened before the body arrived, and the summary stays so
    under every later event until the next run is started. *)
Theorem summary_of_response v evs s r es data p t s1 evs' s2 :
  run v (init v) evs = Some s ->
  calls s !! r = Some (ProcessJson es) ->
  prop "processed" data = Some p ->
  prop "total" data = Some t ->
  step v s (JsonSettles r (Some data)) = Some s1 ->
  same_run evs' = true ->
  run v s1 evs' = Some s2 ->
  processing s1 = false /\
  summary s1 = Some {| processed := Js.or p (JNum 0); total := Js.or t (JNum 0) |} /\
  summary s2 = summary s1 /\
  (forall n m, p = JNum n -> t = JNum m ->
               summary s2 = Some {| processed := JNum n; total := JNum m |}).
Proof.
  intros Hreach Hl Hp Ht Hstep Hsame Hrun.
  pose proof (reachable_one_run _ _ _ Hreach) as Hone.
  pose proof (one_run_step _ _ _ _ Hstep Hone) as Hone1.
  simpl in Hstep. rewrite Hl in Hstep. unfold handleProcess_body in Hstep.
  rewrite Hp, Ht in Hstep. injection Hstep as <-.
  destruct (idle_stable v _ evs' s2 Hone1 eq_refl Hrun Hsame) as [Hs2 _].
  split; [done |]. split; [done |]. split; [done |].
  intros n m -> ->. rewrite Hs2. simpl. unfold Js.or. simpl.
  by destruct (n =? 0)%Z eqn:En, (m =? 0)%Z eqn:Em; simpl;
    rewrite ?Z.eqb_eq in *; subst.
Qed.

Lemma summary_of_response_witness :
  processing (after Plain scenario_A) = false /\
  summary (after Plain scenario_A) =
    Some {| processed := Js.or (JNum 7) (JNum 0); total := Js.or (JNum 10) (JNum 0) |} /\
  summary (after Plain (scenario_A ++ [Message 0 (progress_msg 40); Message 0 (progress_msg 100)])) =
    summary (after Plain scenario_A) /\
  (forall n m, JNum 7 = JNum n -> JNum 10 = JNum m ->
               summary (after Plain (scenario_A ++ [Message 0 (progress_msg 40);
                                                    Message 0 (progress_msg 100)])) =
               Some {| processed := JNum n; total := JNum m |}).
Proof.
  apply (summary_of_response Plain run_streaming (after Plain run_streaming) 1 0%nat
           (counts (JNum 7) (JNum 10)) (JNum 7) (JNum 10)
           (after Plain scenario_A)
           [Message 0 (progress_msg 40); Message 0 (progress_msg 100)]
           (after Plain (scenario_A ++ [Message 0 (progress_msg 40);
                                        Message 0 (progress_msg 100)])));
    vm_compute; reflexivity.
Defined.

(** C1 as stated fails: with the body [{processed: null, total: 3}] of an
    ok response, the summary shows 0 for [processed], not the response's
    field. *)
Lemma summary_differs_from_response :
  run Plain (init Plain) (run_streaming ++ [JsonSettles 1 (Some (counts JNull (JNum 3)))]) =
    Some (after Plain (run_streaming ++ [JsonSettles 1 (Some (counts JNull (JNum 3)))])) /\
  response_fields (counts JNull (JNum 3)) = Some {| processed := JNull; total := JNum 3 |} /\
  summary (after Plain (run_streaming ++ [JsonSettles 1 (Some (counts JNull (JNum 3)))])) =
    Some {| processed := JNum 0; total := JNum 3 |} /\
  summary (after Plain (run_streaming ++ [JsonSettles 1 (Some (counts JNull (JNum 3)))])) <>
    response_fields (counts JNull (JNum 3)).
Proof. vm_compute. repeat split; discriminate. Qed.

(** C5. While a run awaits the response of its start call no summary is
    set, and when that call fails (the fetch rejects or the response is
    not ok) the handler completes with the summary still unset and the
    [processing] flag false. *)
Theorem failed_start_no_summary v evs s r o :
  run v (init v) evs = Some s ->
  calls s !! r = Some ProcessFetch ->
  start_fails o = true ->
  summary s = None /\
  exists s', step v s (FetchSettles r o) = Some s' /\
             calls s' !! r = Some Finished /\
             summary s' = None /\ processing s' = false.
Proof.
  intros Hreach Hl Hfail.
  assert (Hnone : summary s = None).
  { eapply reachable_no_summary_in_run; eauto. }
  split; [done |]. eexists. split.
  - simpl. rewrite Hl. reflexivity.
  - unfold handleProcess_response.
    assert (Hlt : (r < length (calls s))%nat) by (eapply lookup_lt_Some; eauto).
    destruct o as [[|]|]; try discriminate; simpl;
      (split; [by apply list_lookup_insert_eq | done]).
Qed.

Lemma failed_start_no_summary_witness :
  summary (after Plain (select_ok ++ [ClickProcess])) = None /\
  exists s', step Plain (after Plain (select_ok ++ [ClickProcess]))
                  (FetchSettles 1 (Some false)) = Some s' /\
             calls s' !! 1%nat = Some Finished /\
             summary s' = None /\ processing s' = false.
Proof.
  apply (failed_start_no_summary Plain (select_ok ++ [ClickProcess])
           (after Plain (select_ok ++ [ClickProcess])) 1 (Some false));
    vm_compute; reflexivity.
Defined.

(** C7. A message or error of the progress stream never changes the
    [processing] flag or the summary (nor the folder flag or the
    notifications); in [Plain] it changes nothing but the progress value
    and the streams. The [processing] flag is cleared only by the settling
    of the run's own POST /process call: its failed [fetch] or the end of
    its body read, successful or not. *)
Theorem stream_events_frame v s e s' :
  step v s e = Some s' ->
  (stream_event e = true ->
   processing s' = processing s /\ summary s' = summary s /\
   folderSelected s' = folderSelected s /\ toasts s' = toasts s /\
   (v = Plain -> s' = set_sources (sources s') (setProgress (progress s') s))) /\
  (processing s = true -> processing s' = false ->
   exists r,
     (exists o, e = FetchSettles r o /\ start_fails o = true /\
                calls s !! r = Some ProcessFetch) \/
     (exists o es, e = JsonSettles r o /\ calls s !! r = Some (ProcessJson es))).
Proof.
  intros Hstep. split.
  - intros Hev. destruct e; try discriminate Hev.
    all: step_cases Hstep; subst; repeat split; try done.
    all: by destruct s.
  - intros Hon Hoff.
    destruct (step_effect _ _ _ _ Hstep)
      as [Hc Hp Hs | a Hc He' Ha Hp Hs | r a a' Hc Hl Ha Ha' Hp Hs
         | Hc He' Hf Hsel Hp Hs | r es Hc Hl He' Hp Hs
         | r a Hc Hl He' Hp Hs | r es data p t Hc Hl He' Hpp Hpt Hp Hs];
      try congruence.
    + exists r. destruct He' as [(o & -> & Hf & ->) | (o & es & -> & ->)]; eauto 8.
    + exists r. right. eauto.
Qed.

Lemma stream_events_frame_witness :
  (stream_event (Message 0 (progress_msg 100)) = true ->
   processing (after Plain scenario_B) = processing (after Plain run_streaming) /\
   summary (after Plain scenario_B) = summary (after Plain run_streaming) /\
   folderSelected (after Plain scenario_B) = folderSelected (after Plain run_streaming) /\
   toasts (after Plain scenario_B) = toasts (after Plain run_streaming) /\
   (Plain = Plain ->
    after Plain scenario_B =
    set_sources (sources (after Plain scenario_B))
      (setProgress (progress (after Plain scenario_B)) (after Plain run_streaming)))) /\
  (processing (after Plain run_streaming) = true ->
   processing (after Plain scenario_B) = false ->
   exists r,
     (exists o, Message 0 (progress_msg 100) = FetchSettles r o /\ start_fails o = true /\
                calls (after Plain run_streaming) !! r = Some ProcessFetch) \/
     (exists o es, Message 0 (progress_msg 100) = JsonSettles r o /\
                   calls (after Plain run_streaming) !! r = Some (ProcessJson es))).
Proof.
  apply (stream_events_frame Plain (after Plain run_streaming)
           (Message 0 (progress_msg 100)) (after Plain scenario_B)).
  vm_compute; reflexivity.
Defined.

(** ** The progress value *)

Lemma step_progress v s e s' :
  step v s e = Some s' ->
  progress s' =
  match e with
  | ClickProcess => JNum 0
  | Message _ (Some data) =>
      match prop "progress" data with Some p => p | None => progress s end
  | _ => progress s
  end.
Proof. intros H. step_cases H; subst; simpl; congruence. Qed.

Lemma default_last_cons {A} (d x : A) (l : list A) :
  default d (last (x :: l)) = default x (last l).
Proof. rewrite last_cons. by destruct (last l). Qed.

Lemma run_progress v s evs s' :
  run v s evs = Some s' -> same_run evs = true ->
  progress s' = default (progress s) (last (delivered evs)).
Proof.
  revert s. induction evs as [|e evs IH]; intros s Hrun Hsame; simpl in *.
  - by injection Hrun as <-.
  - destruct (step v s e) as [s1|] eqn:Hstep; [|done].
    apply andb_prop in Hsame as [He Hsame]. apply negb_true_iff in He.
    rewrite (IH s1 Hrun Hsame). apply step_progress in Hstep. rewrite Hstep.
    destruct e as [| | | | | | |es [data|]|]; try done.
    destruct (prop "progress" data); [|done].
    by rewrite default_last_cons.
Qed.

Lemma max_clamped_contract (lo : Z) (vals : list Z) :
  0 <= lo <= 100 -> nondecreasing_from lo vals = true ->
  fold_left (fun acc n => Z.max acc (clamp n)) vals lo = default lo (last vals).
Proof.
  revert lo. induction vals as [|n vals IH]; intros lo Hlo Hnd; simpl in *; [done |].
  apply andb_prop in Hnd as [Hn Hnd]. apply andb_prop in Hn as [H1 H2].
  apply Z.leb_le in H1, H2.
  replace (Z.max lo (clamp n)) with n by (unfold clamp; lia).
  rewrite IH by (done || lia). symmetry. apply default_last_cons.
Qed.

(** C2 (as the code has it). The progress value held in state is the last
    value a stream message handed to [setProgress] since the run was
    started, and 0 before the first one; it is neither clamped nor kept
    from decreasing. It is the clamped maximum of the values received
    whenever the server keeps its contract (integers in [0,100], never
    decreasing). *)
Theorem progress_is_last_delivered v s evs s' :
  run v s (ClickProcess :: evs) = Some s' ->
  same_run evs = true ->
  progress s' = default (JNum 0) (last (delivered evs)) /\
  (forall vals, delivered evs = JNum <$> vals ->
                nondecreasing_from 0 vals = true ->
                progress s' = JNum (max_clamped vals)).
Proof.
  intros Hrun Hsame. cbn [run] in Hrun.
  destruct (step v s ClickProcess) as [s1|] eqn:Hstep; [|done].
  pose proof (run_progress _ _ _ _ Hrun Hsame) as Hlast.
  apply step_progress in Hstep. rewrite Hstep in Hlast.
  split; [done |]. intros vals Hvals Hnd.
  rewrite Hlast, Hvals, fmap_last. unfold max_clamped.
  rewrite (max_clamped_contract 0 vals) by (done || lia).
  by destruct (last vals).
Qed.

Lemma progress_is_last_delivered_witness :
  progress (after Plain (run_streaming ++ [Message 0 (progress_msg 40);
                                           Message 0 (progress_msg 100)])) =
    default (JNum 0)
      (last (delivered [FetchSettles 1 (Some true); Message 0 (progress_msg 40);
                        Message 0 (progress_msg 100)])) /\
  (forall vals,
      delivered [FetchSettles 1 (Some true); Message 0 (progress_msg 40);
                 Message 0 (progress_msg 100)] = JNum <$> vals ->
      nondecreasing_from 0 vals = true ->
      progress (after Plain (run_streaming ++ [Message 0 (progress_msg 40);
                                               Message 0 (progress_msg 100)])) =
      JNum (max_clamped vals)).
Proof.
  apply (progress_is_last_delivered Plain (after Plain select_ok)
           [FetchSettles 1 (Some true); Message 0 (progress_msg 40);
            Message 0 (progress_msg 100)]
           (after Plain (run_streaming ++ [Message 0 (progress_msg 40);
                                           Message 0 (progress_msg 100)])));
    vm_compute; reflexivity.
Defined.

(** C2 as stated fails: after the messages 50 and then 30 the progress
    held in state is 30, not the maximum 50; and after a message 150 it is
    150, not 100. *)
Lemma progress_not_clamped_maximum :
  delivered [Message 0 (progress_msg 50); Message 0 (progress_msg 30)] = [JNum 50; JNum 30] /\
  progress (after Plain (run_streaming ++ [Message 0 (progress_msg 50);
                                           Message 0 (progress_msg 30)])) = JNum 30 /\
  progress (after Plain (run_streaming ++ [Message 0 (progress_msg 50);
                                           Message 0 (progress_msg 30)])) <>
    JNum (max_clamped [50; 30]) /\
  delivered [Message 0 (progress_msg 150)] = [JNum 150] /\
  progress (after Plain (run_streaming ++ [Message 0 (progress_msg 150)])) = JNum 150 /\
  progress (after Plain (run_streaming ++ [Message 0 (progress_msg 150)])) <>
    JNum (max_clamped [150]).
Proof. vm_compute. repeat split; discriminate. Qed.

(** ** The progress stream *)

Lemma strict_eq_num_spec (p : JsValue) (n : Z) :
  strict_eq_num p n = true <-> p = JNum n.
Proof.
  destruct p; simpl; try (split; [discriminate | congruence]).
  rewrite Z.eqb_eq. split; congruence.
Qed.

(** C6 (as the code has it). A stream closes itself on a message whose
    progress is exactly the number 100, and on no other message: a value
    above 100, or any other value, leaves it open. A stream is never closed
    twice: [close()] has been called once on every closed stream and never
    on an open one, and a closed stream dispatches no further event. *)
Theorem stream_closes_on_exact_100 v evs s es data p s' :
  run v (init v) evs = Some s ->
  step v s (Message es (Some data)) = Some s' ->
  prop "progress" data = Some p ->
  (p = JNum 100 ->
   sources s' !! es = Some {| closed := true; close_calls := 1 |} /\
   (forall o, step v s' (Message es o) = None) /\
   step v s' (StreamError es) = None) /\
  (p <> JNum 100 -> sources s' = sources s) /\
  (forall es' c, sources s' !! es' = Some c ->
                 close_calls c = if closed c then 1%nat else 0%nat).
Proof.
  intros Hreach Hstep Hp.
  pose proof (reachable_closed_once _ _ _ Hreach) as Hinv.
  pose proof (closed_once_step _ _ _ _ Hstep Hinv) as Hinv'.
  split; [|split; [|exact Hinv']].
  - intros ->. cbn [step] in Hstep.
    destruct (live es s) eqn:Hlive; [|done]. injection Hstep as Hs'.
    unfold live in Hlive. destruct (sources s !! es) as [c|] eqn:Hc; [|done].
    apply negb_true_iff in Hlive. pose proof (Hinv _ _ Hc) as Hcalls.
    rewrite Hlive in Hcalls.
    assert (Hes : sources s' !! es = Some {| closed := true; close_calls := 1 |}).
    { rewrite <- Hs'. unfold onmessage. rewrite Hp. simpl.
      destruct v; simpl; rewrite list_lookup_alter_eq, Hc; simpl; by rewrite Hcalls. }
    split; [done |].
    split; [intros o |]; unfold step, live; by rewrite Hes.
  - intros Hne. cbn [step] in Hstep.
    destruct (live es s); [|done]. injection Hstep as <-.
    unfold onmessage. rewrite Hp.
    destruct (strict_eq_num p 100) eqn:E; [|done].
    by apply strict_eq_num_spec in E.
Qed.

Lemma stream_closes_on_exact_100_witness :
  (JNum 100 = JNum 100 ->
   sources (after Plain scenario_B) !! 0%nat = Some {| closed := true; close_calls := 1 |} /\
   (forall o, step Plain (after Plain scenario_B) (Message 0 o) = None) /\
   step Plain (after Plain scenario_B) (StreamError 0) = None) /\
  (JNum 100 <> JNum 100 ->
   sources (after Plain scenario_B) = sources (after Plain run_streaming)) /\
  (forall es' c, sources (after Plain scenario_B) !! es' = Some c ->
                 close_calls c = if closed c then 1%nat else 0%nat).
Proof.
  apply (stream_closes_on_exact_100 Plain run_streaming (after Plain run_streaming) 0
           (JObj [("progress", JNum 100)]) (JNum 100) (after Plain scenario_B));
    vm_compute; reflexivity.
Defined.

(** C6 as stated fails: a message with progress 150 reaches and exceeds 100
    without an exact 100, and the stream is left open, never closed. *)
Lemma stream_left_open_above_100 :
  run Plain (init Plain) (run_streaming ++ [Message 0 (progress_msg 150)]) =
    Some (after Plain (run_streaming ++ [Message 0 (progress_msg 150)])) /\
  progress (after Plain (run_streaming ++ [Message 0 (progress_msg 150)])) = JNum 150 /\
  sources (after Plain (run_streaming ++ [Message 0 (progress_msg 150)])) =
    [{| closed := false; close_calls := 0 |}] /\
  live 0 (after Plain (run_streaming ++ [Message 0 (progress_msg 150)])) = true /\
  open_channels (after Plain (run_streaming ++ [Message 0 (progress_msg 150)])) <> 0%nat.
Proof. vm_compute. repeat split. discriminate. Qed.

Lemma open_channels_le s : (open_channels s <= length (sources s))%nat.
Proof.
  unfold open_channels. induction (sources s) as [|c l IH]; simpl; [lia |].
  destruct (negb (closed c)); simpl; lia.
Qed.

(** C4 (as the code has it). Every run opens at most one stream, after its
    own request, so the streams ever opened never outnumber the runs
    started. Starting a run closes nothing: the streams are exactly as they
    were before the click, those of earlier runs that were open are still
    open. *)
Theorem channels_bounded_by_runs v evs s :
  run v (init v) evs = Some s ->
  length (sources s) = channels_requested (net s) /\
  (channels_requested (net s) <= runs_started (net s))%nat /\
  (open_channels s <= runs_started (net s))%nat /\
  (forall s', step v s ClickProcess = Some s' ->
              sources s' = sources s /\ open_channels s' = open_channels s /\
              runs_started (net s') = S (runs_started (net s))).
Proof.
  intros Hreach.
  destruct (reachable_channels_of_runs _ _ _ Hreach) as (Hlen & Hle & _).
  pose proof (open_channels_le s).
  split; [done |]. split; [done |]. split; [lia |].
  intros s' Hstep. cbn [step] in Hstep.
  destruct (process_disabled s); [done |]. injection Hstep as <-.
  unfold handleProcess, open_channels; simpl.
  rewrite runs_started_snoc. repeat split. lia.
Qed.

Lemma channels_bounded_by_runs_witness :
  length (sources (after Plain scenario_A)) = channels_requested (net (after Plain scenario_A)) /\
  (channels_requested (net (after Plain scenario_A)) <=
   runs_started (net (after Plain scenario_A)))%nat /\
  (open_channels (after Plain scenario_A) <= runs_started (net (after Plain scenario_A)))%nat /\
  (forall s', step Plain (after Plain scenario_A) ClickProcess = Some s' ->
              sources s' = sources (after Plain scenario_A) /\
              open_channels s' = open_channels (after Plain scenario_A) /\
              runs_started (net s') = S (runs_started (net (after Plain scenario_A)))).
Proof.
  apply (channels_bounded_by_runs Plain scenario_A (after Plain scenario_A)).
  vm_compute; reflexivity.
Defined.

(** C4 as stated fails: a second run started after scenario A finds the
    first run's stream still open, leaves it open, and opens its own: two
    streams are open during the second run. *)
Lemma prior_channel_left_open :
  run Plain (init Plain) (scenario_A ++ [ClickProcess; FetchSettles 2 (Some true)]) =
    Some (after Plain (scenario_A ++ [ClickProcess; FetchSettles 2 (Some true)])) /\
  open_channels (after Plain scenario_A) = 1%nat /\
  open_channels (after Plain (scenario_A ++ [ClickProcess])) = 1%nat /\
  processing (after Plain (scenario_A ++ [ClickProcess; FetchSettles 2 (Some true)])) = true /\
  sources (after Plain (scenario_A ++ [ClickProcess; FetchSettles 2 (Some true)])) =
    [{| closed := false; close_calls := 0 |}; {| closed := false; close_calls := 0 |}] /\
  ~ (open_channels (after Plain (scenario_A ++ [ClickProcess; FetchSettles 2 (Some true)]))
     <= 1)%nat.
Proof. vm_compute. repeat split. lia. Qed.

(** ** When the stream is opened *)

(** A run that still awaits its response after a step awaited it before
    the step, and the step has opened no stream. *)
Lemma step_awaiting v s e s' r :
  one_run s -> (r < length (calls s))%nat ->
  step v s e = Some s' ->
  calls s' !! r = Some ProcessFetch ->
  calls s !! r = Some ProcessFetch /\
  (r < length (calls s'))%nat /\
  channels_requested (net s') = channels_requested (net s) /\
  length (sources s') = length (sources s).
Proof.
  intros [_ Huniq] Hr Hstep Hl'.
  step_cases Hstep; subst; simpl in *.
  all: rewrite ?channels_requested_snoc, ?length_app, ?length_alter, ?length_insert; simpl.
  all: lookup_cases; try lia.
  all: try (repeat split; (done || lia)).
  exfalso. match goal with
           | Hne : ?r1 <> ?r2, H1 : calls _ !! ?r1 = Some ProcessFetch |- _ =>
               apply Hne; by apply (Huniq r1 r2 ProcessFetch ProcessFetch)
           end.
Qed.

Lemma awaiting_no_channel v s evs s' r :
  one_run s -> (r < length (calls s))%nat ->
  run v s evs = Some s' ->
  calls s' !! r = Some ProcessFetch ->
  calls s !! r = Some ProcessFetch /\
  channels_requested (net s') = channels_requested (net s) /\
  length (sources s') = length (sources s).
Proof.
  revert s. induction evs as [|e evs IH]; intros s Hone Hr Hrun Hl'; simpl in *.
  - by injection Hrun as <-.
  - destruct (step v s e) as [s1|] eqn:Hstep; [|done].
    assert (Hr1 : (r < length (calls s1))%nat).
    { pose proof Hstep as Heff. apply step_effect in Heff.
      destruct Heff as [Hc | a Hc | ? a a' Hc | Hc | ? ? Hc | ? a Hc | ? ? ? ? ? Hc];
        rewrite Hc, ?length_app, ?length_insert; lia. }
    pose proof (one_run_step _ _ _ _ Hstep Hone) as Hone1.
    destruct (IH s1 Hone1 Hr1 Hrun Hl') as (Hl1 & Hch & Hlen).
    destruct (step_awaiting _ _ _ _ _ Hone Hr Hstep Hl1) as (Hl0 & _ & Hch0 & Hlen0).
    split; [done |]. split; congruence.
Qed.

(** C3 (as the code has it). The click issues the POST /process request
    and opens no stream. As long as the run awaits the response, whatever
    else happens, no stream has been opened or requested. The stream is
    opened when the response arrives and is ok, before the body is read;
    when the fetch rejects or the response is not ok, no stream is opened
    at all. *)
Theorem stream_opened_on_ok_response v evs0 s0 s1 evs s o s' :
  run v (init v) evs0 = Some s0 ->
  step v s0 ClickProcess = Some s1 ->
  run v s1 evs = Some s ->
  calls s !! length (calls s0) = Some ProcessFetch ->
  step v s (FetchSettles (length (calls s0)) o) = Some s' ->
  (net s1 = net s0 ++ [PostProcess] /\ sources s1 = sources s0) /\
  (channels_requested (net s) = channels_requested (net s0) /\
   length (sources s) = length (sources s0)) /\
  (o = Some true ->
   sources s' = sources s ++ [{| closed := false; close_calls := 0 |}] /\
   net s' = net s ++ [GetProgress] /\
   calls s' !! length (calls s0) = Some (ProcessJson (length (sources s)))) /\
  (o <> Some true ->
   sources s' = sources s /\ net s' = net s /\
   calls s' !! length (calls s0) = Some Finished).
Proof.
  intros Hreach Hclick Hrun Hl Hsettle.
  pose proof (reachable_one_run _ _ _ Hreach) as Hone0.
  pose proof (one_run_step _ _ _ _ Hclick Hone0) as Hone1.
  cbn [step] in Hclick. destruct (process_disabled s0); [done |].
  injection Hclick as Hs1.
  assert (Hr1 : (length (calls s0) < length (calls s1))%nat).
  { rewrite <- Hs1. unfold handleProcess; simpl. rewrite length_app; simpl; lia. }
  destruct (awaiting_no_channel _ _ _ _ _ Hone1 Hr1 Hrun Hl) as (_ & Hch & Hlen).
  assert (Hr : (length (calls s0) < length (calls s))%nat)
    by (eapply lookup_lt_Some; eauto).
  split; [by rewrite <- Hs1 |].
  split.
  { rewrite Hch, Hlen, <- Hs1. unfold handleProcess; simpl.
    by rewrite channels_requested_snoc, Nat.add_0_r. }
  cbn [step] in Hsettle. rewrite Hl in Hsettle. injection Hsettle as <-.
  unfold handleProcess_response. split.
  - intros ->. simpl. repeat split. by apply list_lookup_insert_eq.
  - intros Hne. destruct o as [[|]|]; try done; simpl;
      (repeat split; by apply list_lookup_insert_eq).
Qed.

Lemma stream_opened_on_ok_response_witness :
  (net (after Plain (select_ok ++ [ClickSelect; ClickProcess])) =
     net (after Plain (select_ok ++ [ClickSelect])) ++ [PostProcess] /\
   sources (after Plain (select_ok ++ [ClickSelect; ClickProcess])) =
     sources (after Plain (select_ok ++ [ClickSelect]))) /\
  (channels_requested
     (net (after Plain (select_ok ++ [ClickSelect; ClickProcess; FetchSettles 1 (Some false)]))) =
     channels_requested (net (after Plain (select_ok ++ [ClickSelect]))) /\
   length (sources (after Plain (select_ok ++ [ClickSelect; ClickProcess; FetchSettles 1 (Some false)]))) =
     length (sources (after Plain (select_ok ++ [ClickSelect])))) /\
  (Some true = Some true ->
   sources (after Plain (select_ok ++ [ClickSelect; ClickProcess; FetchSettles 1 (Some false);
                                FetchSettles 2 (Some true)])) =
     sources (after Plain (select_ok ++ [ClickSelect; ClickProcess; FetchSettles 1 (Some false)])) ++
     [{| closed := false; close_calls := 0 |}] /\
   net (after Plain (select_ok ++ [ClickSelect; ClickProcess; FetchSettles 1 (Some false);
                                FetchSettles 2 (Some true)])) =
     net (after Plain (select_ok ++ [ClickSelect; ClickProcess; FetchSettles 1 (Some false)])) ++
     [GetProgress] /\
   calls (after Plain (select_ok ++ [ClickSelect; ClickProcess; FetchSettles 1 (Some false);
                                FetchSettles 2 (Some true)]))
     !! length (calls (after Plain (select_ok ++ [ClickSelect]))) =
     Some (ProcessJson
             (length (sources (after Plain (select_ok ++ [ClickSelect; ClickProcess; FetchSettles 1 (Some false)])))))) /\
  (Some true <> Some true ->
   sources (after Plain (select_ok ++ [ClickSelect; ClickProcess; FetchSettles 1 (Some false);
                                FetchSettles 2 (Some true)])) =
     sources (after Plain (select_ok ++ [ClickSelect; ClickProcess; FetchSettles 1 (Some false)])) /\
   net (after Plain (select_ok ++ [ClickSelect; ClickProcess; FetchSettles 1 (Some false);
                                FetchSettles 2 (Some true)])) =
     net (after Plain (select_ok ++ [ClickSelect; ClickProcess; FetchSettles 1 (Some false)])) /\
   calls (after Plain (select_ok ++ [ClickSelect; ClickProcess; FetchSettles 1 (Some false);
                                FetchSettles 2 (Some true)]))
     !! length (calls (after Plain (select_ok ++ [ClickSelect]))) = Some Finished).
Proof.
  apply (stream_opened_on_ok_response Plain (select_ok ++ [ClickSelect])
           (after Plain (select_ok ++ [ClickSelect]))
           (after Plain (select_ok ++ [ClickSelect; ClickProcess]))
           [FetchSettles 1 (Some false)]
           (after Plain (select_ok ++ [ClickSelect; ClickProcess; FetchSettles 1 (Some false)]))
           (Some true)
           (after Plain (select_ok ++ [ClickSelect; ClickProcess; FetchSettles 1 (Some false);
                                FetchSettles 2 (Some true)])));
    vm_compute; reflexivity.
Defined.

(** C3 as stated fails: once the click has issued POST /process the run
    awaits the response and no stream is open or requested; when the fetch
    then rejects, the run ends without a stream ever having been opened. *)
Lemma no_stream_before_response :
  run Plain (init Plain) (select_ok ++ [ClickProcess; FetchSettles 1 None]) =
    Some (after Plain (select_ok ++ [ClickProcess; FetchSettles 1 None])) /\
  net (after Plain (select_ok ++ [ClickProcess])) = [PostSelectFolder; PostProcess] /\
  calls (after Plain (select_ok ++ [ClickProcess])) !! 1%nat = Some ProcessFetch /\
  sources (after Plain (select_ok ++ [ClickProcess])) = [] /\
  calls (after Plain (select_ok ++ [ClickProcess; FetchSettles 1 None])) !! 1%nat = Some Finished /\
  net (after Plain (select_ok ++ [ClickProcess; FetchSettles 1 None])) =
    [PostSelectFolder; PostProcess] /\
  sources (after Plain (select_ok ++ [ClickProcess; FetchSettles 1 None])) = [] /\
  channels_requested (net (after Plain (select_ok ++ [ClickProcess; FetchSettles 1 None]))) <>
    runs_started (net (after Plain (select_ok ++ [ClickProcess; FetchSettles 1 None]))).
Proof. vm_compute. repeat split. discriminate. Qed.

(** * Further properties of the code *)

(** ** Counting *)

Lemma count_if_app {A} (f : A -> bool) (l1 l2 : list A) :
  count_if f (l1 ++ l2) = (count_if f l1 + count_if f l2)%nat.
Proof. induction l1 as [|x l1 IH]; simpl; [done | rewrite IH; lia]. Qed.

Lemma count_if_insert {A} (f : A -> bool) (l : list A) (i : nat) (x y : A) :
  l !! i = Some x ->
  (count_if f (<[i := y]> l) + (if f x then 1 else 0) =
   count_if f l + (if f y then 1 else 0))%nat.
Proof.
  revert i. induction l as [|z l IH]; intros [|i] H; simpl in *; try discriminate.
  - injection H as ->. lia.
  - specialize (IH i H). lia.
Qed.

Lemma count_if_pos {A} (f : A -> bool) (l : list A) :
  (0 < count_if f l)%nat -> exists i x, l !! i = Some x /\ f x = true.
Proof.
  induction l as [|z l IH]; simpl; [lia |]. intros H.
  destruct (f z) eqn:E.
  - exists 0%nat, z. done.
  - destruct IH as (i & x & Hl & Hx); [lia |]. exists (S i), x. done.
Qed.

(** Rewrite the counts of an extended or updated list in terms of the old one. *)
Ltac count_steps :=
  rewrite ?count_if_app, ?runs_started_snoc, ?channels_requested_snoc;
  repeat match goal with
    | H : ?l !! ?r = Some ?a |- context [count_if ?f (<[?r := ?b]> ?l)] =>
        let E := fresh "E" in
        pose proof (count_if_insert f l r a b H) as E;
        generalize dependent (count_if f (<[r := b]> l)); intros
    end;
  simpl in *.

(** ** The processing flag and the runs *)

Lemma pending_runs_step v s e s' :
  step v s e = Some s' ->
  count_if process_pending (calls s) = (if processing s then 1 else 0)%nat ->
  count_if process_pending (calls s') = (if processing s' then 1 else 0)%nat.
Proof.
  intros H Hinv. step_cases H; subst; count_steps; try done.
  all: try (destruct (processing s); simpl in *; lia).
Qed.

Lemma reachable_pending_runs v evs s :
  run v (init v) evs = Some s ->
  count_if process_pending (calls s) = (if processing s then 1 else 0)%nat.
Proof.
  intros H.
  eapply (run_invariant
            (fun s => count_if process_pending (calls s) =
                      (if processing s then 1 else 0)%nat)); eauto.
  - intros; eapply pending_runs_step; eauto.
  - by destruct v.
Qed.

(** X1. The [processing] flag is set exactly while one invocation of
    handleProcess is pending: runs never overlap, and the flag is never
    left set without a run that will clear it. *)
Theorem processing_iff_run_pending v evs s :
  run v (init v) evs = Some s ->
  count_if process_pending (calls s) = (if processing s then 1 else 0)%nat.
Proof. apply reachable_pending_runs. Qed.

Lemma processing_iff_run_pending_witness :
  count_if process_pending (calls (after Plain run_streaming)) =
  (if processing (after Plain run_streaming) then 1 else 0)%nat.
Proof.
  apply (processing_iff_run_pending Plain run_streaming (after Plain run_streaming)).
  vm_compute; reflexivity.
Defined.

(** X2. The component cannot get stuck in the processing state: whenever
    the flag is set, a run is waiting either for its response or for its
    body; a failed response, and a body read settling in any way, end it
    with the flag cleared and the select button enabled again. *)
Theorem processing_always_recoverable v evs s :
  run v (init v) evs = Some s ->
  processing s = true ->
  exists r,
    (calls s !! r = Some ProcessFetch /\
     forall o, exists s',
       step v s (FetchSettles r o) = Some s' /\
       (start_fails o = true -> processing s' = false /\ select_disabled s' = false) /\
       (start_fails o = false -> exists es, calls s' !! r = Some (ProcessJson es))) \/
    (exists es, calls s !! r = Some (ProcessJson es) /\
     forall o, exists s',
       step v s (JsonSettles r o) = Some s' /\
       processing s' = false /\ select_disabled s' = false).
Proof.
  intros Hreach Hproc.
  pose proof (reachable_pending_runs _ _ _ Hreach) as Hcount.
  rewrite Hproc in Hcount.
  destruct (count_if_pos process_pending (calls s)) as (r & a & Hl & Ha); [lia |].
  assert (Hlt : (r < length (calls s))%nat) by (eapply lookup_lt_Some; eauto).
  exists r. destruct a; try discriminate Ha.
  - left. split; [done |]. intros o. eexists. split.
    + cbn [step]. rewrite Hl. reflexivity.
    + unfold handleProcess_response. destruct o as [[|]|]; simpl; split;
        try done; try (intros _; eexists; by apply list_lookup_insert_eq).
  - right. exists es. split; [done |]. intros o. eexists. split.
    + cbn [step]. rewrite Hl. reflexivity.
    + unfold handleProcess_body.
      destruct o as [data|]; [destruct (prop "processed" data), (prop "total" data) |];
        done.
Qed.

Lemma processing_always_recoverable_witness :
  exists r,
    (calls (after Plain run_streaming) !! r = Some ProcessFetch /\
     forall o, exists s',
       step Plain (after Plain run_streaming) (FetchSettles r o) = Some s' /\
       (start_fails o = true -> processing s' = false /\ select_disabled s' = false) /\
       (start_fails o = false -> exists es, calls s' !! r = Some (ProcessJson es))) \/
    (exists es, calls (after Plain run_streaming) !! r = Some (ProcessJson es) /\
     forall o, exists s',
       step Plain (after Plain run_streaming) (JsonSettles r o) = Some s' /\
       processing s' = false /\ select_disabled s' = false).
Proof.
  apply (processing_always_recoverable Plain run_streaming (after Plain run_streaming));
    vm_compute; reflexivity.
Defined.

(** X3. When the response of a run is ok but its body cannot be read
    (invalid JSON, or the value null), the run ends on the error path: one
    error notification, no summary, the flag cleared; the stream it opened
    is not closed and the progress value stays as it is. *)
Theorem unreadable_body_fails_run v evs s r es o :
  run v (init v) evs = Some s ->
  calls s !! r = Some (ProcessJson es) ->
  o = None \/ o = Some JNull ->
  exists s',
    step v s (JsonSettles r o) = Some s' /\
    toasts s' = toasts s ++ [ProcessErrorToast] /\
    summary s' = None /\ processing s' = false /\
    sources s' = sources s /\ progress s' = progress s /\
    calls s' !! r = Some Finished.
Proof.
  intros Hreach Hl Ho.
  assert (Hnone : summary s = None) by (eapply reachable_no_summary_in_run; eauto).
  assert (Hlt : (r < length (calls s))%nat) by (eapply lookup_lt_Some; eauto).
  eexists. split.
  - cbn [step]. rewrite Hl. reflexivity.
  - destruct Ho as [-> | ->]; simpl; repeat split; try done;
      by apply list_lookup_insert_eq.
Qed.

Lemma unreadable_body_fails_run_witness :
  exists s',
    step Plain (after Plain run_streaming) (JsonSettles 1 (Some JNull)) = Some s' /\
    toasts s' = toasts (after Plain run_streaming) ++ [ProcessErrorToast] /\
    summary s' = None /\ processing s' = false /\
    sources s' = sources (after Plain run_streaming) /\
    progress s' = progress (after Plain run_streaming) /\
    calls s' !! 1%nat = Some Finished.
Proof.
  apply (unreadable_body_fails_run Plain run_streaming (after Plain run_streaming) 1 0%nat
           (Some JNull)); [vm_compute; reflexivity | vm_compute; reflexivity | by right].
Defined.

Lemma run_toasts_step v s e s' :
  step v s e = Some s' ->
  (count_if run_toast (toasts s) + count_if process_pending (calls s))%nat =
    runs_started (net s) ->
  (count_if run_toast (toasts s') + count_if process_pending (calls s'))%nat =
    runs_started (net s').
Proof.
  intros H Hinv. step_cases H; subst; count_steps; lia.
Qed.

(** X4. Every run is answered by exactly one notification: at any time the
    runs started are those that have raised their "Processing Complete" or
    error notification plus the one still pending. *)
Theorem one_notification_per_run v evs s :
  run v (init v) evs = Some s ->
  (count_if run_toast (toasts s) + count_if process_pending (calls s))%nat =
  runs_started (net s).
Proof.
  intros H.
  eapply (run_invariant
            (fun s => (count_if run_toast (toasts s) +
                       count_if process_pending (calls s))%nat = runs_started (net s)));
    eauto.
  - intros; eapply run_toasts_step; eauto.
  - by destruct v.
Qed.

Lemma one_notification_per_run_witness :
  (count_if run_toast (toasts (after Plain scenario_A)) +
   count_if process_pending (calls (after Plain scenario_A)))%nat =
  runs_started (net (after Plain scenario_A)).
Proof.
  apply (one_notification_per_run Plain scenario_A (after Plain scenario_A)).
  vm_compute; reflexivity.
Defined.

(** X5. While a run is in progress the select button is disabled: the
    click is not dispatched and nothing that can happen in that state
    issues a POST /select-folder request. *)
Theorem select_gated v s :
  processing s = true ->
  step v s ClickSelect = None /\
  (forall e s', step v s e = Some s' ->
                count_if select_request (net s') = count_if select_request (net s)).
Proof.
  intros Hproc. split; [simpl; unfold select_disabled; by rewrite Hproc |].
  intros e s' H. destruct e;
    try (simpl in H; unfold select_disabled in H; rewrite Hproc in H; discriminate H).
  all: step_cases H; subst; count_steps; try lia; try congruence.
Qed.

Lemma select_gated_witness :
  step Plain (after Plain run_streaming) ClickSelect = None /\
  (forall e s', step Plain (after Plain run_streaming) e = Some s' ->
                count_if select_request (net s') =
                count_if select_request (net (after Plain run_streaming))).
Proof. apply (select_gated Plain (after Plain run_streaming)). vm_compute; reflexivity. Defined.

(** ** What the summary shows *)

Lemma shown_count_or (x : JsValue) : shown_count (Js.or x (JNum 0)) = true.
Proof. unfold shown_count, Js.or. destruct (truthy x) eqn:E; [by rewrite E | done]. Qed.

Lemma summary_shown_step v s e s' :
  step v s e = Some s' ->
  (forall m, summary s = Some m ->
             shown_count (processed m) = true /\ shown_count (total m) = true) ->
  forall m, summary s' = Some m ->
            shown_count (processed m) = true /\ shown_count (total m) = true.
Proof.
  intros H Hinv m Hm. step_cases H; subst; simpl in *; try congruence; eauto.
  all: try (apply Hinv; congruence).
  all: injection Hm as <-; simpl; split; apply shown_count_or.
Qed.

(** X6. Whatever the backend answers, a summary on screen never shows a
    missing, null, false or empty count: each of its two fields is a truthy
    value of the response or the number 0. *)
Theorem summary_fields_shown v evs s m :
  run v (init v) evs = Some s ->
  summary s = Some m ->
  shown_count (processed m) = true /\ shown_count (total m) = true.
Proof.
  intros H. revert m.
  eapply (run_invariant
            (fun s => forall m, summary s = Some m ->
                                shown_count (processed m) = true /\
                                shown_count (total m) = true)); eauto.
  - intros; eapply summary_shown_step; eauto.
  - intros m Hm. destruct v; discriminate.
Qed.

Lemma summary_fields_shown_witness :
  shown_count (processed {| processed := JNum 0; total := JNum 3 |}) = true /\
  shown_count (total {| processed := JNum 0; total := JNum 3 |}) = true.
Proof.
  apply (summary_fields_shown Plain
           (run_streaming ++ [JsonSettles 1 (Some (counts JNull (JNum 3)))])
           (after Plain (run_streaming ++ [JsonSettles 1 (Some (counts JNull (JNum 3)))])));
    vm_compute; reflexivity.
Defined.




(** ** Folder selection and its notification *)

Lemma folder_toast_step v s e s' :
  step v s e = Some s' ->
  ((0 < count_if folder_toast (toasts s))%nat -> folderSelected s = true) /\
  (forall r a, calls s !! r = Some a -> awaits_upload a = true -> folderSelected s = true) /\
  (v = Plain -> folderSelected s = true -> (0 < count_if folder_toast (toasts s))%nat) ->
  ((0 < count_if folder_toast (toasts s'))%nat -> folderSelected s' = true) /\
  (forall r a, calls s' !! r = Some a -> awaits_upload a = true -> folderSelected s' = true) /\
  (v = Plain -> folderSelected s' = true -> (0 < count_if folder_toast (toasts s'))%nat).
Proof.
  intros H (Htoast & Hup & Hplain).
  step_cases H; subst; count_steps.
  all: split; [| split].
  all: try done.
  all: try (intros; lookup_cases; simpl in *; try done; try lia; eauto; fail).
  all: try (intros; first [ apply Htoast; lia | eapply Hup; eauto; done]).
  all: try (intros; specialize (Hplain ltac:(done) ltac:(done)); lia).
Qed.

(** X8. The "Folder Selected" notification and the folder-selected flag
    agree: the notification is raised only with the flag set; in [Plain]
    the flag is never set without it, and in [Listing], where the flag is
    set before the upload and the notification raised after it, the flag is
    set throughout the upload. *)
Theorem folder_notification_matches_flag v evs s :
  run v (init v) evs = Some s ->
  ((0 < count_if folder_toast (toasts s))%nat -> folderSelected s = true) /\
  (forall r a, calls s !! r = Some a -> awaits_upload a = true -> folderSelected s = true) /\
  (v = Plain -> folderSelected s = true -> (0 < count_if folder_toast (toasts s))%nat).
Proof.
  intros H.
  eapply (run_invariant
            (fun s =>
               ((0 < count_if folder_toast (toasts s))%nat -> folderSelected s = true) /\
               (forall r a, calls s !! r = Some a -> awaits_upload a = true ->
                            folderSelected s = true) /\
               (v = Plain -> folderSelected s = true ->
                (0 < count_if folder_toast (toasts s))%nat))); eauto.
  - intros; eapply folder_toast_step; eauto.
  - destruct v; simpl; repeat split; try (intros; lia); try done.
    all: intros [|[|r]] a Hl Ha; simpl in Hl; try discriminate Hl.
    injection Hl as <-. discriminate Ha.
Qed.

Lemma folder_notification_matches_flag_witness :
  ((0 < count_if folder_toast (toasts (after Plain select_ok)))%nat ->
   folderSelected (after Plain select_ok) = true) /\
  (forall r a, calls (after Plain select_ok) !! r = Some a -> awaits_upload a = true ->
               folderSelected (after Plain select_ok) = true) /\
  (Plain = Plain -> folderSelected (after Plain select_ok) = true ->
   (0 < count_if folder_toast (toasts (after Plain select_ok)))%nat).
Proof.
  apply (folder_notification_matches_flag Plain select_ok (after Plain select_ok)).
  vm_compute; reflexivity.
Defined.

(** X9. In [Listing], once the selection has succeeded, neither a failed
    upload nor a failed refresh of the list hides it: whenever the
    invocation finishes, the last notification raised is "Folder Selected",
    and the flag is as it was. *)
Theorem upload_failure_keeps_selection v s r a e s' :
  calls s !! r = Some a ->
  awaits_upload a = true ->
  step v s e = Some s' ->
  calls s' !! r = Some Finished ->
  last (toasts s') = Some FolderSelectedToast /\ folderSelected s' = folderSelected s.
Proof.
  intros Hl Ha H Hfin.
  step_cases H; subst; lookup_cases; simpl in *; try congruence; try lia.
  all: try (rewrite Hl in *; simplify_eq; simpl in *; try done).
  all: split; [| done]; by rewrite last_snoc.
Qed.

Lemma upload_failure_keeps_selection_witness :
  last (toasts (after Listing (listing_selected ++ [FetchSettles 1 None]))) =
    Some FolderSelectedToast /\
  folderSelected (after Listing (listing_selected ++ [FetchSettles 1 None])) =
    folderSelected (after Listing listing_selected).
Proof.
  apply (upload_failure_keeps_selection Listing (after Listing listing_selected)
           1 UploadFetch (FetchSettles 1 None)
           (after Listing (listing_selected ++ [FetchSettles 1 None])));
    vm_compute; reflexivity.
Defined.

(** ** Streams after they close *)

Lemma closed_stays_closed_step v s e s' es c :
  step v s e = Some s' ->
  sources s !! es = Some c -> closed c = true ->
  sources s' !! es = Some c /\ event_of_stream es e = false.
Proof.
  intros H Hl Hc.
  assert (Hdead : live es s = false) by (unfold live; by rewrite Hl, Hc).
  step_cases H; subst; simpl; try done.
  all: try (split; [by apply lookup_app_l_Some | done]).
  all: match goal with
       | Hlive : live ?es' _ = true |- _ =>
           assert (es' <> es) by (intros ->; congruence);
           assert (Nat.eqb es es' = false) by (apply Nat.eqb_neq; congruence)
       end.
  all: rewrite ?list_lookup_alter_ne by done; rewrite ?lookup_app_l_Some with (x := c) by
      (rewrite ?list_lookup_alter_ne by done; done); done.
Qed.

(** X10. A closed stream is closed for good: there is no reconnection.
    Whatever happens afterwards, the stream stays closed with its single
    [close()] call, and none of the later events is a message or an error
    of that stream. *)
Theorem closed_stream_stays_closed v s evs s' es c :
  run v s evs = Some s' ->
  sources s !! es = Some c -> closed c = true ->
  sources s' !! es = Some c /\
  forallb (fun e => negb (event_of_stream es e)) evs = true.
Proof.
  revert s. induction evs as [|e evs IH]; intros s Hrun Hl Hc; simpl in *.
  - by injection Hrun as <-.
  - destruct (step v s e) as [s1|] eqn:Hstep; [|done].
    destruct (closed_stays_closed_step _ _ _ _ _ _ Hstep Hl Hc) as [Hl1 He].
    destruct (IH s1 Hrun Hl1 Hc) as [Hl' Hevs].
    split; [done |]. by rewrite He, Hevs.
Qed.

Lemma closed_stream_stays_closed_witness :
  sources (after Plain (scenario_B ++ [JsonSettles 1 (Some (counts (JNum 7) (JNum 10)));
                                       ClickProcess; FetchSettles 2 (Some true);
                                       Message 1 (progress_msg 20)])) !! 0%nat =
    Some {| closed := true; close_calls := 1 |} /\
  forallb (fun e => negb (event_of_stream 0 e))
    [JsonSettles 1 (Some (counts (JNum 7) (JNum 10)));
     ClickProcess; FetchSettles 2 (Some true); Message 1 (progress_msg 20)] = true.
Proof.
  apply (closed_stream_stays_closed Plain (after Plain scenario_B)
           [JsonSettles 1 (Some (counts (JNum 7) (JNum 10)));
            ClickProcess; FetchSettles 2 (Some true); Message 1 (progress_msg 20)]
           (after Plain (scenario_B ++ [JsonSettles 1 (Some (counts (JNum 7) (JNum 10)));
                                        ClickProcess; FetchSettles 2 (Some true);
                                        Message 1 (progress_msg 20)]))
           0 {| closed := true; close_calls := 1 |});
    vm_compute; reflexivity.
Defined.

Lemma live_open_channels es s : live es s = true -> (0 < open_channels s)%nat.
Proof.
  unfold live, open_channels. generalize (sources s). intros l. revert es.
  induction l as [|c l IH]; intros [|es]; simpl; try done.
  - intros ->. simpl. lia.
  - intros H. specialize (IH es H). destruct (negb (closed c)); simpl; lia.
Qed.

Lemma frozen_step v s e s' :
  one_run s -> processing s = false -> open_channels s = 0%nat ->
  starts_run e = false ->
  step v s e = Some s' ->
  progress s' = progress s /\ sources s' = sources s.
Proof.
  intros [Hflag _] Hidle Hnone He H.
  step_cases H; subst; simpl in *; try done.
  all: try match goal with
           | Hl : calls _ !! _ = Some ProcessFetch |- _ =>
               pose proof (Hflag _ _ Hl eq_refl); congruence
           end.
  all: match goal with
       | Hlive : live _ _ = true |- _ => apply live_open_channels in Hlive; lia
       end.
Qed.

(** X11. Once the run is over and every stream has closed, the progress
    value is frozen: until the process button is clicked again nothing
    changes it and no stream opens. *)
Theorem progress_frozen_after_streams_close v evs0 s evs s' :
  run v (init v) evs0 = Some s ->
  processing s = false -> open_channels s = 0%nat ->
  same_run evs = true ->
  run v s evs = Some s' ->
  progress s' = progress s /\ open_channels s' = 0%nat.
Proof.
  intros Hreach. pose proof (reachable_one_run _ _ _ Hreach) as Hone. clear Hreach.
  revert s Hone. induction evs as [|e evs IH]; intros s Hone Hidle Hnone Hsame Hrun;
    simpl in *.
  - by injection Hrun as <-.
  - destruct (step v s e) as [s1|] eqn:Hstep; [|done].
    apply andb_prop in Hsame as [He Hsame]. apply negb_true_iff in He.
    destruct (frozen_step _ _ _ _ Hone Hidle Hnone He Hstep) as [Hp Hs].
    destruct (idle_stable v s [e] s1 Hone Hidle) as [_ Hidle1];
      [simpl; by rewrite Hstep | simpl; by rewrite He |].
    destruct (IH s1) as [Hp' Hs']; eauto using one_run_step.
    + unfold open_channels. by rewrite Hs.
    + split; congruence.
Qed.

Lemma progress_frozen_after_streams_close_witness :
  progress (after Plain (scenario_B ++ [JsonSettles 1 (Some (counts (JNum 7) (JNum 10)));
                                        ClickSelect; ClickOpenOutput false])) =
    progress (after Plain (scenario_B ++ [JsonSettles 1 (Some (counts (JNum 7) (JNum 10)))])) /\
  open_channels (after Plain (scenario_B ++ [JsonSettles 1 (Some (counts (JNum 7) (JNum 10)));
                                             ClickSelect; ClickOpenOutput false])) = 0%nat.
Proof.
  apply (progress_frozen_after_streams_close Plain
           (scenario_B ++ [JsonSettles 1 (Some (counts (JNum 7) (JNum 10)))])
           (after Plain (scenario_B ++ [JsonSettles 1 (Some (counts (JNum 7) (JNum 10)))]))
           [ClickSelect; ClickOpenOutput false]
           (after Plain (scenario_B ++ [JsonSettles 1 (Some (counts (JNum 7) (JNum 10)));
                                        ClickSelect; ClickOpenOutput false])));
    vm_compute; reflexivity.
Defined.

(** ** The receipts list ([Listing]) *)

(** X12. The receipts list is replaced only by the body of a successful
    refresh, with whatever value that body parsed to; a refresh that fails
    in any way, like every other event, leaves the list shown as it was. *)
Theorem receipts_replaced_only_by_refresh v s e s' :
  step v s e = Some s' ->
  receipts s' = receipts s \/
  exists r k data,
    e = JsonSettles r (Some data) /\ calls s !! r = Some (ReceiptsJson k) /\
    receipts s' = data.
Proof.
  intros H. step_cases H; subst; simpl; try (by left).
  all: right; eauto 6.
Qed.

Lemma receipts_replaced_only_by_refresh_witness :
  receipts (after Listing [FetchSettles 0 (Some false)]) = receipts (after Listing []) \/
  exists r k data,
    FetchSettles 0 (Some false) = JsonSettles r (Some data) /\
    calls (after Listing []) !! r = Some (ReceiptsJson k) /\
    receipts (after Listing [FetchSettles 0 (Some false)]) = data.
Proof.
  apply (receipts_replaced_only_by_refresh Listing (after Listing [])
           (FetchSettles 0 (Some false)) (after Listing [FetchSettles 0 (Some false)])).
  vm_compute; reflexivity.
Defined.

(** ** The timer-simulated progress *)

Lemma sim_run_invariant (P : Simulated.State -> Prop) s evs s' :
  (forall s1 e s2, Simulated.step s1 e = Some s2 -> P s1 -> P s2) ->
  Simulated.run s evs = Some s' -> P s -> P s'.
Proof.
  intros Hstep. revert s. induction evs as [|e evs IH]; intros s; simpl.
  - by intros [= <-].
  - destruct (Simulated.step s e) as [s1|] eqn:E; [|done]. eauto.
Qed.

Lemma sim_progress_step s e s' :
  Simulated.step s e = Some s' ->
  (exists k, Simulated.progress s = 10 * k /\ 0 <= k <= 10) ->
  (exists k, Simulated.progress s' = 10 * k /\ 0 <= k <= 10) /\
  Simulated.progress s' =
    (if Simulated.starts_run e then 0
     else if Simulated.is_tick e then Z.min 100 (Simulated.progress s + 10)
     else Simulated.progress s).
Proof.
  intros H (k & Hk & Hr).
  sim_step_cases H; subst; simpl; try (split; [by exists k | done]).
  all: repeat match goal with
         | E : (_ <=? _)%Z = true |- _ => apply Z.leb_le in E
         | E : (_ <=? _)%Z = false |- _ => apply Z.leb_gt in E
         end.
  all: first [ split; [by exists 0 | done]
             | split; [exists 10; lia | lia]
             | split; [exists (k + 1); lia | lia] ].
Qed.

Lemma reachable_sim_progress evs s :
  Simulated.run Simulated.init evs = Some s ->
  exists k, Simulated.progress s = 10 * k /\ 0 <= k <= 10.
Proof.
  intros H.
  eapply (sim_run_invariant
            (fun s => exists k, Simulated.progress s = 10 * k /\ 0 <= k <= 10)); eauto.
  - intros s1 e s2 Hstep Hinv. by destruct (sim_progress_step _ _ _ Hstep Hinv).
  - exists 0. done.
Qed.

(** X13. The simulated progress is always one of 0, 10, ..., 100: the
    timer never takes it out of range, whatever the number of timers
    running and whatever the backend answers. *)
Theorem simulated_progress_in_range evs s :
  Simulated.run Simulated.init evs = Some s ->
  exists k, Simulated.progress s = 10 * k /\ 0 <= k <= 10.
Proof. apply reachable_sim_progress. Qed.

Lemma simulated_progress_in_range_witness :
  exists k,
    Simulated.progress
      (Simulated.after (Simulated.run_ticking ++ [Simulated.Tick 0; Simulated.Tick 0])) =
    10 * k /\ 0 <= k <= 10.
Proof.
  apply (simulated_progress_in_range
           (Simulated.run_ticking ++ [Simulated.Tick 0; Simulated.Tick 0])).
  vm_compute; reflexivity.
Defined.

Lemma sim_progress_run s evs s' :
  (exists k, Simulated.progress s = 10 * k /\ 0 <= k <= 10) ->
  Simulated.run s evs = Some s' ->
  Simulated.same_run evs = true ->
  Simulated.progress s' =
  Z.min 100 (Simulated.progress s + 10 * Z.of_nat (count_if Simulated.is_tick evs)).
Proof.
  revert s. induction evs as [|e evs IH]; intros s Hinv Hrun Hsame; simpl in *.
  - injection Hrun as <-. destruct Hinv as (k & Hk & Hr). lia.
  - destruct (Simulated.step s e) as [s1|] eqn:Hstep; [|done].
    apply andb_prop in Hsame as [He Hsame]. apply negb_true_iff in He.
    destruct (sim_progress_step _ _ _ Hstep Hinv) as [Hinv1 Hp1].
    rewrite (IH s1 Hinv1 Hrun Hsame), Hp1, He.
    destruct Hinv as (k & Hk & Hr).
    destruct (Simulated.is_tick e); lia.
Qed.

(** X14. During a run the simulated progress counts the ticks: after n
    ticks since the click, of whichever timers, it is 10 n capped at 100;
    the answers of the backend do not enter into it. *)
Theorem simulated_progress_counts_ticks s evs s' :
  Simulated.run s (Simulated.ClickProcess :: evs) = Some s' ->
  Simulated.same_run evs = true ->
  Simulated.progress s' = Z.min 100 (10 * Z.of_nat (count_if Simulated.is_tick evs)).
Proof.
  intros Hrun Hsame. cbn [Simulated.run] in Hrun.
  destruct (Simulated.step s Simulated.ClickProcess) as [s1|] eqn:Hstep; [|done].
  assert (Hp1 : Simulated.progress s1 = 0) by (sim_step_cases Hstep; by subst).
  rewrite (sim_progress_run s1 evs s'); try done.
  - by rewrite Hp1.
  - exists 0. rewrite Hp1. lia.
Qed.

Lemma simulated_progress_counts_ticks_witness :
  Simulated.progress
    (Simulated.after (Simulated.run_ticking ++ [Simulated.Tick 0; Simulated.Tick 0])) =
  Z.min 100 (10 * Z.of_nat (count_if Simulated.is_tick
                              [Simulated.FetchSettles 1 (Some true);
                               Simulated.Tick 0; Simulated.Tick 0])).
Proof.
  apply (simulated_progress_counts_ticks
           (Simulated.after [Simulated.ClickSelect; Simulated.FetchSettles 0 (Some true);
                             Simulated.JsonSettles 0 (Some (JObj [("success", JBool true)]))])
           [Simulated.FetchSettles 1 (Some true); Simulated.Tick 0; Simulated.Tick 0]
           (Simulated.after (Simulated.run_ticking ++ [Simulated.Tick 0; Simulated.Tick 0])));
    vm_compute; reflexivity.
Defined.

Lemma sim_ticks_to_full i n : forall s,
  Simulated.ticking i s = true ->
  Simulated.progress s = 100 - 10 * Z.of_nat n ->
  exists s1, Simulated.run s (repeat (Simulated.Tick i) n) = Some s1 /\
             Simulated.progress s1 = 100 /\ Simulated.timers s1 = Simulated.timers s.
Proof.
  induction n as [|n IH]; intros s Hi Hp; simpl.
  - exists s. repeat split. lia.
  - rewrite Hi. unfold Simulated.tick.
    destruct (100 <=? Simulated.progress s)%Z eqn:E; [apply Z.leb_le in E; lia |].
    destruct (IH (Simulated.setProgress (Simulated.progress s + 10) s)) as (s1 & H1 & H2 & H3);
      [done | simpl; lia |].
    exists s1. done.
Qed.

Lemma sim_budget_step i s e s' :
  Simulated.step s e = Some s' ->
  (exists k, Simulated.progress s = 10 * k /\ 0 <= k <= 10) ->
  Simulated.starts_run e = false ->
  10 * Z.of_nat (if Simulated.tick_of i e then 1 else 0) + Simulated.budget i s'
  <= Simulated.budget i s.
Proof.
  intros H (k & Hk & Hr) He.
  sim_step_cases H; subst; try discriminate He; unfold Simulated.budget; simpl.
  all: repeat match goal with
         | E : (_ <=? _)%Z = true |- _ => apply Z.leb_le in E
         | E : (_ <=? _)%Z = false |- _ => apply Z.leb_gt in E
         | E : Nat.eqb _ _ = true |- _ => apply Nat.eqb_eq in E; subst
         | E : Nat.eqb _ _ = false |- _ => apply Nat.eqb_neq in E
         | E : Simulated.ticking ?j _ = true |- _ =>
             unfold Simulated.ticking in E;
             destruct (Simulated.timers _ !! j) as [[|]|] eqn:?; try discriminate E;
             clear E
         end.
  all: try (destruct (Simulated.timers s !! i) as [[|]|]; lia).
  - destruct (Simulated.timers s !! i) as [b|] eqn:E.
    + erewrite lookup_app_l_Some by eauto. destruct b; lia.
    + destruct ((Simulated.timers s ++ [true]) !! i) as [[|]|]; lia.
  - rewrite list_lookup_insert_eq by (eapply lookup_lt_Some; eauto). lia.
  - lia.
  - rewrite list_lookup_insert_ne by done.
    destruct (Simulated.timers s !! i) as [[|]|]; lia.
Qed.

Lemma sim_budget_run i evs : forall s s',
  (exists k, Simulated.progress s = 10 * k /\ 0 <= k <= 10) ->
  Simulated.run s evs = Some s' ->
  Simulated.same_run evs = true ->
  10 * Z.of_nat (count_if (Simulated.tick_of i) evs) + Simulated.budget i s'
  <= Simulated.budget i s.
Proof.
  induction evs as [|e evs IH]; intros s s' Hinv Hrun Hsame; simpl in *.
  - injection Hrun as <-. lia.
  - destruct (Simulated.step s e) as [s1|] eqn:Hstep; [|done].
    apply andb_prop in Hsame as [He Hsame]. apply negb_true_iff in He.
    destruct (sim_progress_step _ _ _ Hstep Hinv) as [Hinv1 _].
    pose proof (sim_budget_step i _ _ _ Hstep Hinv He).
    pose proof (IH s1 s' Hinv1 Hrun Hsame).
    destruct (Simulated.tick_of i e); lia.
Qed.

Lemma sim_cleared_step i s e s' :
  Simulated.step s e = Some s' ->
  Simulated.timers s !! i = Some false ->
  Simulated.timers s' !! i = Some false /\ Simulated.tick_of i e = false.
Proof.
  intros H Hi. sim_step_cases H; subst; simpl; try done.
  all: repeat match goal with
         | E : Simulated.ticking ?j _ = true |- _ =>
             unfold Simulated.ticking in E;
             destruct (Simulated.timers _ !! j) as [[|]|] eqn:?; try discriminate E;
             clear E
         end.
  all: try (split; [by apply lookup_app_l_Some | done]).
  all: destruct (Nat.eqb_spec i interval) as [-> | Hne]; [congruence |].
  all: split; [| done]; by rewrite ?list_lookup_insert_ne.
Qed.

Lemma sim_cleared_run i evs : forall s s',
  Simulated.run s evs = Some s' ->
  Simulated.timers s !! i = Some false ->
  Simulated.timers s' !! i = Some false /\ count_if (Simulated.tick_of i) evs = 0%nat.
Proof.
  induction evs as [|e evs IH]; intros s s' Hrun Hi; simpl in *.
  - by injection Hrun as <-.
  - destruct (Simulated.step s e) as [s1|] eqn:Hstep; [|done].
    destruct (sim_cleared_step i _ _ _ Hstep Hi) as [Hi1 He].
    destruct (IH s1 s' Hrun Hi1) as [Hi' Hc]. by rewrite He, Hc.
Qed.

(** X15. How long an interval runs. Between two clicks on the process
    button an interval fires at most eleven times, whatever else happens:
    each firing adds 10 until the progress is at 100, and the firing that
    finds it there clears the interval (a click in between resets the
    progress and so lets a running interval go on). A cleared interval
    never fires again, in any continuation. And a running interval can
    always be brought to its end: at most ten of its ticks bring the
    progress to 100 and the next one clears it. *)
Theorem interval_stops_itself evs0 s i evs s' :
  Simulated.run Simulated.init evs0 = Some s ->
  Simulated.run s evs = Some s' ->
  (Simulated.same_run evs = true ->
   10 * Z.of_nat (count_if (Simulated.tick_of i) evs) <= 110 - Simulated.progress s /\
   (count_if (Simulated.tick_of i) evs <= 11)%nat) /\
  (Simulated.timers s !! i = Some false ->
   Simulated.timers s' !! i = Some false /\
   count_if (Simulated.tick_of i) evs = 0%nat) /\
  (Simulated.ticking i s' = true ->
   exists n s1 s2,
     (n <= 10)%nat /\
     Simulated.run s' (repeat (Simulated.Tick i) n) = Some s1 /\
     Simulated.progress s1 = 100 /\ Simulated.ticking i s1 = true /\
     Simulated.step s1 (Simulated.Tick i) = Some s2 /\
     Simulated.progress s2 = 100 /\ Simulated.timers s2 !! i = Some false).
Proof.
  intros Hreach Hrun.
  pose proof (reachable_sim_progress _ _ Hreach) as Hinv.
  split; [| split].
  - intros Hsame.
    pose proof (sim_budget_run i evs s s' Hinv Hrun Hsame) as Hb.
    assert (Hinv' : exists k, Simulated.progress s' = 10 * k /\ 0 <= k <= 10).
    { eapply (sim_run_invariant
                (fun s => exists k, Simulated.progress s = 10 * k /\ 0 <= k <= 10));
        [| exact Hrun | exact Hinv].
      intros s1 e s2 Hstep H1. by destruct (sim_progress_step _ _ _ Hstep H1). }
    destruct Hinv as (k & Hk & Hr), Hinv' as (k' & Hk' & Hr').
    assert (0 <= Simulated.budget i s') by
      (unfold Simulated.budget; destruct (Simulated.timers s' !! i) as [[|]|]; lia).
    assert (Simulated.budget i s <= 110 - Simulated.progress s) by
      (unfold Simulated.budget; destruct (Simulated.timers s !! i) as [[|]|]; lia).
    lia.
  - intros Hi. by apply (sim_cleared_run i evs s s').
  - intros Hi.
    assert (Hinv' : exists k, Simulated.progress s' = 10 * k /\ 0 <= k <= 10).
    { eapply (sim_run_invariant
                (fun s => exists k, Simulated.progress s = 10 * k /\ 0 <= k <= 10));
        [| exact Hrun | exact Hinv].
      intros s1 e s2 Hstep H1. by destruct (sim_progress_step _ _ _ Hstep H1). }
    destruct Hinv' as (k & Hk & Hr).
    destruct (sim_ticks_to_full i (Z.to_nat (10 - k)) s' Hi) as (s1 & H1 & H2 & H3); [lia |].
    assert (Hi1 : Simulated.ticking i s1 = true).
    { unfold Simulated.ticking in *. by rewrite H3. }
    assert (Hlt : (i < length (Simulated.timers s1))%nat).
    { unfold Simulated.ticking in Hi1.
      destruct (Simulated.timers s1 !! i) eqn:E; [|done]. eapply lookup_lt_Some; eauto. }
    exists (Z.to_nat (10 - k)), s1, (Simulated.tick i s1).
    split; [lia |]. split; [done |]. split; [done |]. split; [done |].
    split; [simpl; by rewrite Hi1 |].
    unfold Simulated.tick. rewrite H2. simpl. split; [done |].
    by apply list_lookup_insert_eq.
Qed.

Lemma interval_stops_itself_witness :
  (Simulated.same_run [Simulated.Tick 0; Simulated.Tick 0] = true ->
   10 * Z.of_nat (count_if (Simulated.tick_of 0) [Simulated.Tick 0; Simulated.Tick 0])
   <= 110 - Simulated.progress (Simulated.after Simulated.run_ticking) /\
   (count_if (Simulated.tick_of 0) [Simulated.Tick 0; Simulated.Tick 0] <= 11)%nat) /\
  (Simulated.timers (Simulated.after Simulated.run_ticking) !! 0%nat = Some false ->
   Simulated.timers
     (Simulated.after (Simulated.run_ticking ++ [Simulated.Tick 0; Simulated.Tick 0]))
     !! 0%nat = Some false /\
   count_if (Simulated.tick_of 0) [Simulated.Tick 0; Simulated.Tick 0] = 0%nat) /\
  (Simulated.ticking 0
     (Simulated.after (Simulated.run_ticking ++ [Simulated.Tick 0; Simulated.Tick 0])) = true ->
   exists n s1 s2,
     (n <= 10)%nat /\
     Simulated.run
       (Simulated.after (Simulated.run_ticking ++ [Simulated.Tick 0; Simulated.Tick 0]))
       (repeat (Simulated.Tick 0) n) = Some s1 /\
     Simulated.progress s1 = 100 /\ Simulated.ticking 0 s1 = true /\
     Simulated.step s1 (Simulated.Tick 0) = Some s2 /\
     Simulated.progress s2 = 100 /\ Simulated.timers s2 !! 0%nat = Some false).
Proof.
  apply (interval_stops_itself Simulated.run_ticking (Simulated.after Simulated.run_ticking) 0
           [Simulated.Tick 0; Simulated.Tick 0]
           (Simulated.after (Simulated.run_ticking ++ [Simulated.Tick 0; Simulated.Tick 0])));
    vm_compute; reflexivity.
Defined.

Lemma sim_timers_step s e s' :
  Simulated.step s e = Some s' ->
  (length (Simulated.timers s) + count_if awaits_response (Simulated.calls s)
   <= runs_started (Simulated.net s))%nat ->
  (length (Simulated.timers s') + count_if awaits_response (Simulated.calls s')
   <= runs_started (Simulated.net s'))%nat.
Proof.
  intros H Hinv. sim_step_cases H; subst; count_steps;
    rewrite ?length_app, ?length_insert; simpl; lia.
Qed.

(** X16. Every run sets at most one interval, and starting a run clears
    none: the timers are as before the click while the progress is back at
    0, so an interval of an earlier run that is still running goes on
    advancing the progress of the new run. *)
Theorem timers_outlive_runs evs s :
  Simulated.run Simulated.init evs = Some s ->
  (length (Simulated.timers s) <= runs_started (Simulated.net s))%nat /\
  (forall s', Simulated.step s Simulated.ClickProcess = Some s' ->
              Simulated.timers s' = Simulated.timers s /\
              Simulated.progress s' = 0 /\
              forall i, Simulated.ticking i s = true ->
                        exists s'', Simulated.step s' (Simulated.Tick i) = Some s'' /\
                                    Simulated.progress s'' = 10).
Proof.
  intros Hreach. split.
  - cut (length (Simulated.timers s) + count_if awaits_response (Simulated.calls s)
         <= runs_started (Simulated.net s))%nat; [lia |].
    eapply (sim_run_invariant
              (fun s => (length (Simulated.timers s) +
                         count_if awaits_response (Simulated.calls s)
                         <= runs_started (Simulated.net s))%nat));
      [intros; eapply sim_timers_step; eauto | exact Hreach | simpl; lia].
  - intros s' Hstep. cbn [Simulated.step] in Hstep.
    destruct (Simulated.processing s || negb (Simulated.folderSelected s)); [done |].
    injection Hstep as <-. split; [done |]. split; [done |].
    intros i Hi. eexists. split.
    + cbn [Simulated.step]. unfold Simulated.ticking in *. simpl. rewrite Hi. reflexivity.
    + reflexivity.
Qed.

Lemma timers_outlive_runs_witness :
  (length (Simulated.timers
             (Simulated.after
                (Simulated.run_ticking ++
                 [Simulated.JsonSettles 1 (Some (counts (JNum 7) (JNum 10)))])))
   <= runs_started
        (Simulated.net
           (Simulated.after
              (Simulated.run_ticking ++
               [Simulated.JsonSettles 1 (Some (counts (JNum 7) (JNum 10)))]))))%nat /\
  (forall s',
      Simulated.step
        (Simulated.after
           (Simulated.run_ticking ++
            [Simulated.JsonSettles 1 (Some (counts (JNum 7) (JNum 10)))]))
        Simulated.ClickProcess = Some s' ->
      Simulated.timers s' =
        Simulated.timers
          (Simulated.after
             (Simulated.run_ticking ++
              [Simulated.JsonSettles 1 (Some (counts (JNum 7) (JNum 10)))])) /\
      Simulated.progress s' = 0 /\
      forall i,
        Simulated.ticking i
          (Simulated.after
             (Simulated.run_ticking ++
              [Simulated.JsonSettles 1 (Some (counts (JNum 7) (JNum 10)))])) = true ->
        exists s'', Simulated.step s' (Simulated.Tick i) = Some s'' /\
                    Simulated.progress s'' = 10).
Proof.
  apply (timers_outlive_runs
           (Simulated.run_ticking ++
            [Simulated.JsonSettles 1 (Some (counts (JNum 7) (JNum 10)))])).
  vm_compute; reflexivity.
Defined.

(** ** Downloads ([Listing]) *)

Lemma download_toasts_step v s e s' :
  step v s e = Some s' ->
  (count_if download_toast (toasts s) + count_if awaits_download (calls s))%nat =
    count_if download_request (net s) ->
  (count_if download_toast (toasts s') + count_if awaits_download (calls s'))%nat =
    count_if download_request (net s').
Proof.
  intros H Hinv. step_cases H; subst; count_steps; lia.
Qed.

(** X17. Every download is answered by exactly one notification, "Download
    Started" or the error: the GET /download requests issued are those
    already answered plus those still pending; and no other handler raises
    these notifications. *)
Theorem one_notification_per_download v evs s :
  run v (init v) evs = Some s ->
  (count_if download_toast (toasts s) + count_if awaits_download (calls s))%nat =
  count_if download_request (net s).
Proof.
  intros H.
  eapply (run_invariant
            (fun s => (count_if download_toast (toasts s) +
                       count_if awaits_download (calls s))%nat =
                      count_if download_request (net s))); eauto.
  - intros; eapply download_toasts_step; eauto.
  - by destruct v.
Qed.

Lemma one_notification_per_download_witness :
  (count_if download_toast (toasts (after Listing listing_downloaded)) +
   count_if awaits_download (calls (after Listing listing_downloaded)))%nat =
  count_if download_request (net (after Listing listing_downloaded)).
Proof.
  apply (one_notification_per_download Listing listing_downloaded
           (after Listing listing_downloaded)).
  vm_compute; reflexivity.
Defined.
